(** * Background-removal ZIP endpoint ([main.py]): a shallow embedding

    The handler [remove_bg_zip] of [main.py] is embedded as a computation in
    a state-and-exception monad.  The state holds what the Python code
    mutates (the output archive being written, the counter
    [processed_files]) together with a trace of the log lines emitted and of
    the calls made to the external capabilities ([zipfile], [PIL], [rembg]).
    A raised exception leaves the state as it was when it was raised, as in
    Python. *)

From Stdlib Require Import ZArith Ascii String.
From Stdlib.Strings Require Import Byte.
From stdpp Require Import base decidable option list strings gmap pretty.

Local Open Scope string_scope.
Local Open Scope Z_scope.

(** ** Python strings

    A Python [str] is represented by the bytes of its UTF-8 encoding.  The
    characters the handler looks for (the dot, the slash, the letters of
    the extensions) are ASCII, and an ASCII byte never occurs inside the
    encoding of another character, so searching and slicing on the bytes
    agree with searching and slicing on the characters. *)

Module Str.

(** [str.lower], on the ASCII letters.  Every place where [main.py] lowers
    a string compares the result with a literal made of [.] and the
    letters of zip, png, jpg, jpeg, webp; no character outside ASCII
    lowers to one of those, so the comparisons agree with Python's. *)
Definition lower_ascii (c : ascii) : ascii :=
  let n := nat_of_ascii c in
  if (Nat.leb 65 n && Nat.leb n 90)%bool then ascii_of_nat (n + 32) else c.

Fixpoint lower (s : string) : string :=
  match s with
  | EmptyString => EmptyString
  | String c s' => String (lower_ascii c) (lower s')
  end.

(** [s[:n]] and [s[n:]] for an index [n] that is not negative. *)
Fixpoint take (n : nat) (s : string) : string :=
  match n, s with
  | O, _ => EmptyString
  | S _, EmptyString => EmptyString
  | S n', String c s' => String c (take n' s')
  end.

Fixpoint drop (n : nat) (s : string) : string :=
  match n, s with
  | O, _ => s
  | S _, EmptyString => EmptyString
  | S n', String _ s' => drop n' s'
  end.

(** [s.rfind(c)] for a one-character needle: the highest index holding
    [c], or [-1]. *)
Fixpoint rfind_from (c : ascii) (s : string) (i last : Z) : Z :=
  match s with
  | EmptyString => last
  | String a s' => rfind_from c s' (i + 1) (if Ascii.eqb a c then i else last)
  end.

Definition rfind (c : ascii) (s : string) : Z := rfind_from c s 0 (-1).

(** [s.endswith(suffix)]. *)
Definition endswith (s suffix : string) : bool :=
  (Nat.leb (String.length suffix) (String.length s)
   && String.eqb (drop (String.length s - String.length suffix) s) suffix)%bool.

(** Does [s.encode('latin-1')] succeed?  It does when every character is
    at most U+00FF.  In UTF-8 such a character is one byte below 0x80, or
    the lead byte 0xC2 or 0xC3 with one continuation byte (0x80 to 0xBF);
    every higher character starts with a lead byte from 0xC4 on. *)
Fixpoint latin1 (s : string) : bool :=
  match s with
  | EmptyString => true
  | String c s' => (Nat.ltb (nat_of_ascii c) 196 && latin1 s')%bool
  end.

End Str.

(** ** [os.path] (the POSIX flavour, [posixpath]) *)

Module os_path.

(** Are the first [n] characters of [p] all dots?  This is the
    [while filenameIndex < dotIndex] loop of [genericpath._splitext], run
    on [p[sepIndex+1:]]: it returns the split at the first character that
    is not a dot, and falls through when there is none. *)
Fixpoint only_dots (p : string) (n : nat) : bool :=
  match n, p with
  | O, _ => true
  | S _, EmptyString => true
  | S n', String c p' => (Ascii.eqb c "."%char && only_dots p' n')%bool
  end.

(** [os.path.splitext(p)]: [(root, ext)], where [ext] starts at the last
    dot of the last path component, unless that component has only dots
    before it. *)
Definition splitext (p : string) : string * string :=
  let sepIndex := Str.rfind "/"%char p in
  let dotIndex := Str.rfind "."%char p in
  if (sepIndex <? dotIndex)
     && negb (only_dots (Str.drop (Z.to_nat (sepIndex + 1)) p)
                        (Z.to_nat (dotIndex - (sepIndex + 1))))
  then (Str.take (Z.to_nat dotIndex) p, Str.drop (Z.to_nat dotIndex) p)
  else (p, EmptyString).

(** [os.path.basename(p)]: what follows the last slash. *)
Definition basename (p : string) : string :=
  Str.drop (Z.to_nat (Str.rfind "/"%char p + 1)) p.

End os_path.

(** ** Exceptions, results and the data of the request *)

Definition bytes : Type := list byte.

Inductive exn : Type :=
| HTTPException (status_code : Z) (detail : string)
| BadZipFile (msg : string)
| OtherError (msg : string).

Inductive Result (A : Type) : Type :=
| Ok (a : A)
| Raise (e : exn).
Arguments Ok {A} a.
Arguments Raise {A} e.

(** The [UploadFile] of FastAPI: the handler reads [file.filename] and
    [await file.read()]. *)
Module UploadFile.
Record t : Type := mk { filename : option string; contents : bytes }.
End UploadFile.

(** A [zipfile.ZipInfo]: the handler reads [filename] and [file_size] (the
    size declared in the directory); [header_offset] tells apart two members
    that agree on both.  [filename] is the name as the object holds it: its
    constructor has decoded it and cut it at the first NUL, so that the
    [ZipInfo] that [writestr] builds from such a name keeps it whole. *)
Module ZipInfo.
Record t : Type := mk { filename : string; file_size : Z; header_offset : Z }.
End ZipInfo.

(** The [StreamingResponse] built at the end; [status_code] is the default
    200 of the constructor. *)
Module StreamingResponse.
Record t : Type := mk {
  status_code : Z;
  body : bytes;
  media_type : string;
  headers : list (string * string)
}.
End StreamingResponse.

Definition ALLOWED_EXTENSIONS : gset string :=
  {[ ".png"; ".jpg"; ".jpeg"; ".webp" ]}.

(** ** The external capabilities

    [zipfile], [PIL.Image] and [rembg.remove] are not code of this
    repository.  A [World] fixes what each of their calls returns or
    raises. *)
Record World : Type := {
  ZipRef : Type;
  ZipExtFile : Type;
  PILImage : Type;
  (** [zipfile.ZipFile(BytesIO(contents), 'r')] *)
  ZipFile_r : bytes -> Result ZipRef;
  (** [zip_ref.infolist()]; [namelist()] is its list of names *)
  infolist : ZipRef -> list ZipInfo.t;
  (** [zip_ref.open(file_info)] *)
  zopen : ZipRef -> ZipInfo.t -> Result ZipExtFile;
  (** [original_file.read()] *)
  ZipExtFile_read : ZipExtFile -> Result bytes;
  (** [Image.open(img_file).convert('RGBA')] *)
  Image_open_convert : ZipExtFile -> Result PILImage;
  (** [remove(img)] *)
  rembg_remove : PILImage -> Result PILImage;
  (** [result.save(img_byte_arr, format='PNG')] then [getvalue()] *)
  save_png : PILImage -> Result bytes;
  (** the bytes of [output_buffer] once [out_zip] is closed *)
  zip_dump : list (string * bytes) -> bytes;
  (** [str(e)] for an [HTTPException]; it depends on the Starlette version *)
  HTTPException_str : Z -> string -> string;
  (** [str(e)] for the [UnicodeEncodeError] that [s.encode('latin-1')]
      raises on the string [s] *)
  UnicodeEncodeError_str : string -> string
}.

Definition namelist (W : World) (zip_ref : ZipRef W) : list string :=
  ZipInfo.filename <$> infolist W zip_ref.

Definition str_exn (W : World) (e : exn) : string :=
  match e with
  | HTTPException c d => HTTPException_str W c d
  | BadZipFile m => m
  | OtherError m => m
  end.

(** ** State, trace and the monad *)

Inductive level : Type := INFO | WARNING | ERROR.

Inductive event : Type :=
| Log (lvl : level) (msg : string)
| CallZipFile
| CallOpen (name : string)
| CallImageOpen
| CallRemove
| CallSave
| CallRead.

Record State : Type := mkState {
  out_zip : list (string * bytes);
  processed_files : nat;
  trace : list event
}.

Definition initial : State := mkState [] 0 [].

Definition M (A : Type) : Type := State -> Result A * State.

#[export] Instance M_ret : MRet M := λ A a s, (Ok a, s).

#[export] Instance M_bind : MBind M := λ A B k m s,
  match m s with
  | (Ok a, s') => k a s'
  | (Raise e, s') => (Raise e, s')
  end.

Definition raise {A} (e : exn) : M A := λ s, (Raise e, s).

(** [try: body except Exception as e: handler e]; a handler that does not
    match an exception raises it again. *)
Definition try_except {A} (body : M A) (handler : exn -> M A) : M A := λ s,
  match body s with
  | (Ok a, s') => (Ok a, s')
  | (Raise e, s') => handler e s'
  end.

Definition emit (ev : event) : M unit := λ s,
  (Ok tt, mkState (out_zip s) (processed_files s) (trace s ++ [ev])).

Definition log (lvl : level) (msg : string) : M unit := emit (Log lvl msg).

(** A call to an external capability: recorded, then its outcome. *)
Definition call {A} (ev : event) (r : Result A) : M A := λ s,
  (r, mkState (out_zip s) (processed_files s) (trace s ++ [ev])).

(** Does the local file header take the name?  [ZipInfo.FileHeader] packs
    the length of the encoded name (ASCII, or else UTF-8) as an unsigned
    16-bit integer. *)
Definition writable (name : string) : bool :=
  Z.of_nat (String.length name) <=? 65535.

(** [out_zip.writestr(name, data)]: a member is appended, whatever names
    the archive already holds.  When the encoded name is longer than 65535
    bytes, [struct.pack] raises [struct.error] while the header is built,
    before anything is written: the archive is as it was. *)
Definition writestr (name : string) (data : bytes) : M unit := λ s,
  if writable name then
    (Ok tt, mkState (out_zip s ++ [(name, data)]) (processed_files s) (trace s))
  else
    (Raise (OtherError "ushort format requires 0 <= number <= 65535"), s).

(** [processed_files += 1] *)
Definition incr_processed_files : M unit := λ s,
  (Ok tt, mkState (out_zip s) (S (processed_files s)) (trace s)).

Definition get_processed_files : M nat := λ s, (Ok (processed_files s), s).

Definition get_out_zip : M (list (string * bytes)) := λ s, (Ok (out_zip s), s).

(** [output_buffer = BytesIO()] and [processed_files = 0] *)
Definition reset_buffers : M unit := λ s, (Ok tt, mkState [] 0 (trace s)).

Fixpoint for_each {A} (l : list A) (body : A -> M unit) : M unit :=
  match l with
  | [] => mret tt
  | x :: l' => body x;; for_each l' body
  end.

(** ** The handler *)

Section Handler.

Variable W : World.

(** One turn of [for file_info in zip_ref.infolist()].  [continue] ends the
    turn, so each branch below is the whole rest of the turn. *)
Definition process_entry (zip_ref : ZipRef W) (file_info : ZipInfo.t) : M unit :=
  let name := ZipInfo.filename file_info in
  if ZipInfo.file_size file_info =? 0 then
    log WARNING ("Skipping empty file: " ++ name)
  else
    let file_ext := Str.lower (os_path.splitext name).2 in
    if decide (file_ext ∈ ALLOWED_EXTENSIONS) then
      try_except
        (img_file ← call (CallOpen name) (zopen W zip_ref file_info);
         try_except
           (img ← call CallImageOpen (Image_open_convert W img_file);
            result ← call CallRemove (rembg_remove W img);
            img_byte_arr ← call CallSave (save_png W result);
            let base := (os_path.splitext name).1 in
            let new_filename := base ++ ".png" in
            writestr new_filename img_byte_arr;;
            incr_processed_files;;
            log INFO ("Processed: " ++ new_filename))
           (λ img_error,
              log WARNING ("Error processing " ++ name ++ ": " ++ str_exn W img_error);;
              original_file ← call (CallOpen name) (zopen W zip_ref file_info);
              data ← call CallRead (ZipExtFile_read W original_file);
              writestr name data))
        (λ e, log ERROR ("Failed to process " ++ name ++ ": " ++ str_exn W e))
    else mret tt.

(** [Response.init_headers]: each header name, lowered, and each header
    value is encoded as latin-1, in the order of the dictionary; this is the
    first string that cannot be. *)
Fixpoint first_unencodable (headers : list (string * string)) : option string :=
  match headers with
  | [] => None
  | (k, v) :: rest =>
      if negb (Str.latin1 (Str.lower k)) then Some (Str.lower k)
      else if negb (Str.latin1 v) then Some v
      else first_unencodable rest
  end.

(** [StreamingResponse(content, media_type=..., headers=...)]: the
    constructor encodes the headers, and raises [UnicodeEncodeError] when
    one of them is not latin-1. *)
Definition new_StreamingResponse (content : bytes) (media_type : string)
    (headers : list (string * string)) : M StreamingResponse.t :=
  match first_unencodable headers with
  | Some text => raise (OtherError (UnicodeEncodeError_str W text))
  | None => mret (StreamingResponse.mk 200 content media_type headers)
  end.

(** The body of the inner [try] (lines 83 to 141). *)
Definition process_zip (filename : string) (contents : bytes) : M StreamingResponse.t :=
  zip_ref ← call CallZipFile (ZipFile_r W contents);
  let file_list := namelist W zip_ref in
  (if bool_decide (file_list = []) then
     log WARNING "Request rejected: ZIP file contains no files";;
     raise (HTTPException 400 "ZIP file is empty")
   else mret tt);;
  log INFO ("Found " ++ pretty (length file_list) ++ " files in ZIP");;
  for_each (infolist W zip_ref) (process_entry zip_ref);;
  processed ← get_processed_files;
  (if bool_decide (processed = 0%nat) then
     log WARNING "Request rejected: No valid images processed in ZIP";;
     raise (HTTPException 400 "No valid images found in the ZIP file")
   else mret tt);;
  log INFO ("Successfully processed " ++ pretty processed ++ " out of "
            ++ pretty (length file_list) ++ " files");;
  members ← get_out_zip;
  let output_buffer := zip_dump W members in
  new_StreamingResponse output_buffer "application/zip"
    [("Content-Disposition",
      "attachment; filename=processed_" ++ os_path.basename filename);
     ("Content-Length", pretty (length output_buffer))].

(** [if not file or not file.filename]: the file is absent, or its name is
    [None] or empty. *)
Definition named_file (file : option UploadFile.t) : option (UploadFile.t * string) :=
  match file with
  | None => None
  | Some f =>
      match UploadFile.filename f with
      | None => None
      | Some EmptyString => None
      | Some name => Some (f, name)
      end
  end.

Definition remove_bg_zip (file : option UploadFile.t) : M StreamingResponse.t :=
  match named_file file with
  | None =>
      log WARNING "Request rejected: No file provided or filename is empty";;
      raise (HTTPException 400 "No file provided")
  | Some (f, filename) =>
      if negb (Str.endswith (Str.lower filename) ".zip") then
        log WARNING ("Request rejected: Invalid file type '" ++ filename
                     ++ "'. Expected .zip");;
        raise (HTTPException 400 "File must be a ZIP file")
      else
        try_except
          (let contents := UploadFile.contents f in
           (if bool_decide (contents = []) then
              log WARNING "Request rejected: File content is empty";;
              raise (HTTPException 400 "The uploaded file is empty")
            else mret tt);;
           log INFO ("Processing file: " ++ filename ++ ", size: "
                     ++ pretty (length contents) ++ " bytes");;
           reset_buffers;;
           try_except
             (process_zip filename contents)
             (λ e,
                match e with
                | BadZipFile _ =>
                    log ERROR "Uploaded file is not a valid ZIP";;
                    raise (HTTPException 400 "Invalid ZIP file format")
                | _ =>
                    log ERROR ("Error processing ZIP file: " ++ str_exn W e);;
                    raise (HTTPException 500 ("Error processing file: " ++ str_exn W e))
                end))
          (λ e,
             match e with
             | HTTPException _ _ => raise e
             | _ =>
                 log ERROR ("Unexpected error: " ++ str_exn W e);;
                 raise (HTTPException 500 "An unexpected error occurred")
             end)
  end.

(** What the caller gets, and the state the request ends in. *)
Definition serve (file : option UploadFile.t) : Result StreamingResponse.t :=
  (remove_bg_zip file initial).1.

End Handler.

(** ** Small concrete worlds, to run the handler *)

Module Toy.

(** An archive reader given by a table: [parse] is what the constructor
    does with the uploaded bytes, [opens] says which members open, [reads]
    is what reading a member gives, and [decodes] which members [PIL]
    accepts.  Images are their bytes; removal and encoding put one marker
    byte in front each. *)
Definition world (parse : bytes -> Result (list ZipInfo.t))
    (opens : ZipInfo.t -> bool) (reads : ZipInfo.t -> Result bytes)
    (decodes : ZipInfo.t -> bool) : World :=
  {| ZipRef := list ZipInfo.t;
     ZipExtFile := ZipInfo.t;
     PILImage := bytes;
     ZipFile_r := parse;
     infolist := λ l, l;
     zopen := λ _ zi, if opens zi then Ok zi else Raise (BadZipFile "Bad magic number for file header");
     ZipExtFile_read := reads;
     Image_open_convert := λ zi,
       if decodes zi then
         match reads zi with Ok b => Ok b | Raise e => Raise e end
       else Raise (OtherError "cannot identify image file");
     rembg_remove := λ img, Ok (x00 :: img);
     save_png := λ img, Ok (x89 :: img);
     zip_dump := λ members, mjoin (snd <$> members);
     HTTPException_str := λ c d, pretty c ++ ": " ++ d;
     UnicodeEncodeError_str := λ text,
       "'latin-1' codec can't encode characters in '" ++ text ++ "'" |}.

Definition a_jpg : ZipInfo.t := ZipInfo.mk "a.jpg" 3 0.
Definition a_webp : ZipInfo.t := ZipInfo.mk "a.webp" 2 40.
Definition notes_txt : ZipInfo.t := ZipInfo.mk "notes.txt" 10 80.
Definition corrupt_png : ZipInfo.t := ZipInfo.mk "corrupt.png" 4 0.
Definition empty_png : ZipInfo.t := ZipInfo.mk "empty.png" 0 120.

(** A member named by 40000 letters [é] and [.jpg].  Stored in code page
    437, as archives without the UTF-8 flag are, the name takes 40004
    bytes; in UTF-8, which the writer uses for a name that is not ASCII, it
    takes 80004. *)
Fixpoint accents (n : nat) : string :=
  match n with
  | O => EmptyString
  | S n' => String "195" (String "169" (accents n'))
  end.

Definition long_jpg : ZipInfo.t :=
  ZipInfo.mk (accents (Z.to_nat 40000) ++ ".jpg") 3 160.

Definition data_of (zi : ZipInfo.t) : bytes :=
  repeat x61 (Z.to_nat (ZipInfo.file_size zi)).

Definition upload (name : string) : UploadFile.t :=
  UploadFile.mk (Some name) [x50; x4b].

Definition is_corrupt (zi : ZipInfo.t) : bool :=
  String.eqb (ZipInfo.filename zi) "corrupt.png".

(** Five members; [corrupt.png] is stored intact but is not an image. *)
Definition W_photos : World :=
  world (λ _, Ok [a_jpg; notes_txt; empty_png; corrupt_png; a_webp])
        (λ _, true) (λ zi, Ok (data_of zi)) (λ zi, negb (is_corrupt zi)).

(** [data.zip]: the single member [corrupt.png]. *)
Definition W_corrupt : World :=
  world (λ _, Ok [corrupt_png])
        (λ _, true) (λ zi, Ok (data_of zi)) (λ zi, negb (is_corrupt zi)).

(** A well-formed archive with no member. *)
Definition W_empty : World :=
  world (λ _, Ok []) (λ _, true) (λ zi, Ok (data_of zi)) (λ _, true).

(** Bytes that are not an archive. *)
Definition W_bad : World :=
  world (λ _, Raise (BadZipFile "File is not a zip file"))
        (λ _, true) (λ zi, Ok (data_of zi)) (λ _, true).

(** [corrupt.png] is damaged in the archive: reading it to the end fails
    the CRC check, for [PIL] and for the pass-through alike. *)
Definition W_crc : World :=
  world (λ _, Ok [corrupt_png; a_jpg])
        (λ _, true)
        (λ zi, if is_corrupt zi then Raise (BadZipFile "Bad CRC-32 for file 'corrupt.png'")
               else Ok (data_of zi))
        (λ _, true).

(** The local header of [corrupt.png] is damaged: the member does not open. *)
Definition W_noopen : World :=
  world (λ _, Ok [corrupt_png; a_jpg])
        (λ zi, negb (is_corrupt zi)) (λ zi, Ok (data_of zi)) (λ _, true).

End Toy.

(** ** Vocabulary for the properties *)

(** Lines 103 to 108 as seen from outside: the PNG bytes that decoding,
    removal and encoding give for an opened member, or the first error. *)
Definition to_png (W : World) (f : ZipExtFile W) : Result bytes :=
  match Image_open_convert W f with
  | Ok img =>
      match rembg_remove W img with
      | Ok result => save_png W result
      | Raise e => Raise e
      end
  | Raise e => Raise e
  end.

Definition file_ext (zi : ZipInfo.t) : string :=
  Str.lower (os_path.splitext (ZipInfo.filename zi)).2.

(** A member that is not empty and has an extension of the allow-list. *)
Definition is_candidate (zi : ZipInfo.t) : bool :=
  negb (ZipInfo.file_size zi =? 0) && bool_decide (file_ext zi ∈ ALLOWED_EXTENSIONS).

Definition png_name (zi : ZipInfo.t) : string :=
  (os_path.splitext (ZipInfo.filename zi)).1 ++ ".png".

(** A candidate that opens, decodes, loses its background and encodes, and
    whose new name the archive writer takes. *)
Definition processed_ok (W : World) (zip_ref : ZipRef W) (zi : ZipInfo.t) : bool :=
  is_candidate zi &&
  match zopen W zip_ref zi with
  | Ok f => match to_png W f with Ok _ => writable (png_name zi) | Raise _ => false end
  | Raise _ => false
  end.

(** Lines 103 to 112 as seen from outside: the PNG bytes written under the
    new name, or the first error, which is that of the writer when the new
    name is too long. *)
Definition attempt (W : World) (zi : ZipInfo.t) (f : ZipExtFile W) : Result bytes :=
  match to_png W f with
  | Ok png =>
      if writable (png_name zi) then Ok png
      else Raise (OtherError "ushort format requires 0 <= number <= 65535")
  | Raise e => Raise e
  end.

(** Lines 118 and 119 as seen from outside, for a member that opens: the
    original bytes written under the original name, or the error of the
    read or of the writer. *)
Definition passthrough (W : World) (zi : ZipInfo.t) (f : ZipExtFile W) : Result bytes :=
  match ZipExtFile_read W f with
  | Ok data =>
      if writable (ZipInfo.filename zi) then Ok data
      else Raise (OtherError "ushort format requires 0 <= number <= 65535")
  | Raise e => Raise e
  end.

(** The state the loop over a whole archive ends in, from a fresh output
    archive and counter. *)
Definition loop_end (W : World) (zip_ref : ZipRef W) : State :=
  (for_each (infolist W zip_ref) (process_entry W zip_ref) initial).2.

(** The state a turn of the loop ends in when it starts from nothing: the
    members it writes, what it adds to the counter, what it logs and calls. *)
Definition turn (W : World) (zip_ref : ZipRef W) (zi : ZipInfo.t) : State :=
  (process_entry W zip_ref zi initial).2.

Definition extend (s d : State) : State :=
  mkState (out_zip s ++ out_zip d) (processed_files s + processed_files d)%nat
          (trace s ++ trace d).

(** The state after the turns of the members [l], one after the other. *)
Definition after_loop (W : World) (zip_ref : ZipRef W) (l : list ZipInfo.t) (s : State) : State :=
  foldl (λ s zi, extend s (turn W zip_ref zi)) s l.

(** The response of a request that succeeds. *)
Definition success_response (W : World) (filename : string) (members : list (string * bytes)) : StreamingResponse.t :=
  StreamingResponse.mk 200 (zip_dump W members) "application/zip"
    [("Content-Disposition", "attachment; filename=processed_" ++ os_path.basename filename);
     ("Content-Length", pretty (length (zip_dump W members)))].

(** The four checks of the archive validator, in the order in which the
    specification lists them, each stated on the request alone. *)
Inductive check : Type :=
| MissingFile
| WrongExtension
| EmptyBody
| MalformedContainer.

Definition check_rank (c : check) : nat :=
  match c with
  | MissingFile => 0
  | WrongExtension => 1
  | EmptyBody => 2
  | MalformedContainer => 3
  end.

Definition check_message (c : check) : string :=
  match c with
  | MissingFile => "No file provided"
  | WrongExtension => "File must be a ZIP file"
  | EmptyBody => "The uploaded file is empty"
  | MalformedContainer => "Invalid ZIP file format"
  end.

(** Does the request fail the check?  A request without a file, or without
    a file name, fails the later checks as well: it has no [.zip] name, no
    bytes and no archive. *)
Definition check_fails (W : World) (file : option UploadFile.t) (c : check) : bool :=
  match c with
  | MissingFile =>
      match file with
      | None => true
      | Some f =>
          match UploadFile.filename f with
          | None => true
          | Some name => String.eqb name EmptyString
          end
      end
  | WrongExtension =>
      match file ≫= UploadFile.filename with
      | None => true
      | Some name => negb (Str.endswith (Str.lower name) ".zip")
      end
  | EmptyBody =>
      match file with
      | None => true
      | Some f => match UploadFile.contents f with [] => true | _ => false end
      end
  | MalformedContainer =>
      match file with
      | None => true
      | Some f =>
          match ZipFile_r W (UploadFile.contents f) with
          | Raise (BadZipFile _) => true
          | _ => false
          end
      end
  end.

(** ** Vocabulary for the properties of the loop and of the paths *)

(** What the turn of a member leaves in the output archive, read off the
    branches of [process_entry]: the PNG under the new name, the original
    bytes under the original name, or nothing. *)
Definition written (W : World) (zip_ref : ZipRef W) (zi : ZipInfo.t) : list (string * bytes) :=
  if is_candidate zi then
    match zopen W zip_ref zi with
    | Ok f =>
        let passthrough :=
          match ZipExtFile_read W f with
          | Ok data => if writable (ZipInfo.filename zi) then [(ZipInfo.filename zi, data)] else []
          | Raise _ => []
          end in
        match to_png W f with
        | Ok png => if writable (png_name zi) then [(png_name zi, png)] else passthrough
        | Raise _ => passthrough
        end
    | Raise _ => []
    end
  else [].

(** A trace event that is a log line, not a call to [zipfile], [PIL] or
    [rembg]. *)
Definition is_log (ev : event) : bool :=
  match ev with
  | Log _ _ => true
  | _ => false
  end.

(** How many times the trace records a call to [rembg.remove]. *)
Fixpoint removals (t : list event) : nat :=
  match t with
  | [] => 0
  | CallRemove :: t' => S (removals t')
  | _ :: t' => removals t'
  end.

(** Does the character occur in the string? *)
Fixpoint occurs (c : ascii) (s : string) : bool :=
  match s with
  | EmptyString => false
  | String a s' => Ascii.eqb a c || occurs c s'
  end.

(** ** The string and path functions on examples *)

Example splitext_jpg : os_path.splitext "dir.d/a.b.JPG" = ("dir.d/a.b", ".JPG").
Proof. reflexivity. Qed.

Example splitext_dotfile : os_path.splitext "x/.png" = ("x/.png", EmptyString).
Proof. reflexivity. Qed.

Example splitext_dir_dot : os_path.splitext "a.b/c" = ("a.b/c", EmptyString).
Proof. reflexivity. Qed.

Example splitext_dots : os_path.splitext "..a.png" = ("..a", ".png").
Proof. reflexivity. Qed.

Example basename_ex : os_path.basename "up/photos.zip" = "photos.zip".
Proof. reflexivity. Qed.

Example lower_ex : Str.lower "A.JpEg" = "a.jpeg".
Proof. reflexivity. Qed.

Example endswith_ex : Str.endswith "photos.zip" ".zip" = true /\ Str.endswith "zip" ".zip" = false.
Proof. split; reflexivity. Qed.

(** ** Running the monad *)

Lemma run_bind {A B} (m : M A) (k : A -> M B) (s : State) :
  (m ≫= k) s = match m s with (Ok a, s') => k a s' | (Raise e, s') => (Raise e, s') end.
Proof. reflexivity. Qed.

Lemma for_each_cons {A} (x : A) (l : list A) (body : A -> M unit) (s : State) :
  for_each (x :: l) body s =
  match body x s with (Ok _, s') => for_each l body s' | (Raise e, s') => (Raise e, s') end.
Proof. reflexivity. Qed.

Ltac run_step :=
  unfold mbind, M_bind, mret, M_ret, try_except, call, log, emit, writestr,
    incr_processed_files, get_processed_files, get_out_zip, reset_buffers, raise;
  cbn [fst snd out_zip processed_files trace].

Lemma extend_initial (s : State) : extend s initial = s.
Proof.
  destruct s as [o n t]. unfold extend; cbn.
  by rewrite !app_nil_r, Nat.add_0_r.
Qed.

Lemma extend_initial_l (d : State) : extend initial d = d.
Proof. by destruct d. Qed.

Lemma extend_assoc (s d1 d2 : State) :
  extend (extend s d1) d2 = extend s (extend d1 d2).
Proof.
  unfold extend; cbn. by rewrite !app_assoc, Nat.add_assoc.
Qed.

Ltac frame_done :=
  run_step; cbn;
  rewrite <- ?app_assoc, ?app_nil_r, ?Nat.add_0_r, ?Nat.add_1_r; cbn;
  try reflexivity.

(** The outcomes of the external calls and of the two name checks that a
    turn of the loop can depend on. *)
Ltac turn_cases W zip_ref zi :=
  let f := fresh "f" in
  let img := fresh "img" in
  let res := fresh "res" in
  destruct (zopen W zip_ref zi) as [f | ?];
  [ destruct (ZipExtFile_read W f) as [? | ?];
    destruct (writable (ZipInfo.filename zi));
    destruct (writable ((os_path.splitext (ZipInfo.filename zi)).1 ++ ".png"));
    (destruct (Image_open_convert W f) as [img | ?];
     [ destruct (rembg_remove W img) as [res | ?];
       [ destruct (save_png W res) as [? | ?] | ] | ])
  | ].

Lemma process_entry_frame (W : World) (zip_ref : ZipRef W) (zi : ZipInfo.t) (s : State) :
  process_entry W zip_ref zi s = (Ok tt, extend s (turn W zip_ref zi)).
Proof.
  unfold turn, process_entry, extend.
  destruct (ZipInfo.file_size zi =? 0); [by frame_done |].
  destruct (decide _) as [Hext | Hext]; [| by frame_done; destruct s].
  run_step. turn_cases W zip_ref zi; by frame_done.
Qed.

Lemma after_loop_cons (W : World) (zip_ref : ZipRef W) (zi : ZipInfo.t) (l : list ZipInfo.t) (s : State) :
  after_loop W zip_ref (zi :: l) s = after_loop W zip_ref l (extend s (turn W zip_ref zi)).
Proof. reflexivity. Qed.

Lemma for_each_frame (W : World) (zip_ref : ZipRef W) (l : list ZipInfo.t) (s : State) :
  for_each l (process_entry W zip_ref) s = (Ok tt, after_loop W zip_ref l s).
Proof.
  revert s. induction l as [| zi l IH]; intros s; [reflexivity |].
  rewrite for_each_cons, process_entry_frame. apply IH.
Qed.

Lemma after_loop_extend (W : World) (zip_ref : ZipRef W) (l : list ZipInfo.t) (s : State) :
  after_loop W zip_ref l s = extend s (after_loop W zip_ref l initial).
Proof.
  revert s. induction l as [| zi l IH]; intros s.
  - cbn. by rewrite extend_initial.
  - rewrite !after_loop_cons, IH, (IH (extend initial _)), extend_initial_l.
    apply extend_assoc.
Qed.

Lemma loop_end_after_loop (W : World) (zip_ref : ZipRef W) :
  loop_end W zip_ref = after_loop W zip_ref (infolist W zip_ref) initial.
Proof. unfold loop_end. by rewrite for_each_frame. Qed.

Lemma append_cons (c : ascii) (a b : string) : String c a ++ b = String c (a ++ b).
Proof. reflexivity. Qed.

Lemma append_empty_r (a : string) : a ++ EmptyString = a.
Proof. induction a as [| c a IH]; [reflexivity |]. by rewrite append_cons, IH. Qed.

Lemma take_drop (n : nat) (p : string) : Str.take n p ++ Str.drop n p = p.
Proof.
  revert p. induction n as [| n IH]; intros [| c p]; simpl; try reflexivity.
  by rewrite append_cons, IH.
Qed.

(** [root + ext == p], as the documentation of [os.path.splitext] says. *)
Lemma splitext_join (p : string) :
  (os_path.splitext p).1 ++ (os_path.splitext p).2 = p.
Proof.
  unfold os_path.splitext.
  destruct (_ && _); cbn [fst snd]; [apply take_drop | apply append_empty_r].
Qed.

Lemma processed_files_turn (W : World) (zip_ref : ZipRef W) (zi : ZipInfo.t) :
  processed_files (turn W zip_ref zi) = if processed_ok W zip_ref zi then 1%nat else 0%nat.
Proof.
  unfold turn, process_entry, processed_ok, is_candidate, file_ext, to_png, png_name.
  destruct (ZipInfo.file_size zi =? 0); [reflexivity |].
  cbn [negb andb].
  destruct (decide (file_ext zi ∈ ALLOWED_EXTENSIONS)) as [Hext | Hext]; unfold file_ext in Hext.
  2: { by rewrite (bool_decide_eq_false_2 _ Hext), decide_False. }
  rewrite (bool_decide_eq_true_2 _ Hext), decide_True by done.
  cbn [andb]. run_step. turn_cases W zip_ref zi; reflexivity.
Qed.

Lemma processed_files_after_loop (W : World) (zip_ref : ZipRef W) (l : list ZipInfo.t) (s : State) :
  processed_files (after_loop W zip_ref l s)
  = (processed_files s + length (filter (λ zi, processed_ok W zip_ref zi = true) l))%nat.
Proof.
  revert s. induction l as [| zi l IH]; intros s.
  - cbn. by rewrite Nat.add_0_r.
  - rewrite after_loop_cons, IH, filter_cons. cbn [extend processed_files].
    rewrite processed_files_turn.
    destruct (processed_ok W zip_ref zi); cbn.
    + rewrite decide_True by done. cbn. lia.
    + rewrite decide_False by done. lia.
Qed.

(** ** One turn of the loop, case by case *)

Lemma process_entry_candidate (W : World) (zip_ref : ZipRef W) (zi : ZipInfo.t) (s : State) :
  ZipInfo.file_size zi ≠ 0 ->
  file_ext zi ∈ ALLOWED_EXTENSIONS ->
  process_entry W zip_ref zi s =
  try_except
    (img_file ← call (CallOpen (ZipInfo.filename zi)) (zopen W zip_ref zi);
     try_except
       (img ← call CallImageOpen (Image_open_convert W img_file);
        result ← call CallRemove (rembg_remove W img);
        img_byte_arr ← call CallSave (save_png W result);
        writestr ((os_path.splitext (ZipInfo.filename zi)).1 ++ ".png") img_byte_arr;;
        incr_processed_files;;
        log INFO ("Processed: " ++ ((os_path.splitext (ZipInfo.filename zi)).1 ++ ".png")))
       (λ img_error,
          log WARNING ("Error processing " ++ (ZipInfo.filename zi) ++ ": " ++ str_exn W img_error);;
          original_file ← call (CallOpen (ZipInfo.filename zi)) (zopen W zip_ref zi);
          data ← call CallRead (ZipExtFile_read W original_file);
          writestr (ZipInfo.filename zi) data))
    (λ e, log ERROR ("Failed to process " ++ (ZipInfo.filename zi) ++ ": " ++ str_exn W e)) s.
Proof.
  intros Hsize Hext. unfold process_entry.
  apply Z.eqb_neq in Hsize. rewrite Hsize.
  unfold file_ext in Hext. by rewrite decide_True.
Qed.

Lemma process_entry_png (W : World) (zip_ref : ZipRef W) (zi : ZipInfo.t)
    (f : ZipExtFile W) (png : bytes) (s : State) :
  ZipInfo.file_size zi ≠ 0 ->
  file_ext zi ∈ ALLOWED_EXTENSIONS ->
  zopen W zip_ref zi = Ok f ->
  attempt W zi f = Ok png ->
  process_entry W zip_ref zi s =
  (Ok tt,
   mkState (out_zip s ++ [(png_name zi, png)])
           (S (processed_files s))
           (trace s ++ [CallOpen (ZipInfo.filename zi); CallImageOpen; CallRemove; CallSave;
                         Log INFO ("Processed: " ++ png_name zi)])).
Proof.
  intros Hsize Hext Hopen Hpng. rewrite process_entry_candidate by done.
  unfold attempt, to_png, png_name in *. run_step. rewrite Hopen.
  destruct (Image_open_convert W f) as [img | e1]; [| done].
  destruct (rembg_remove W img) as [res | e2]; [| done].
  destruct (save_png W res) as [png' | e3]; [| done].
  destruct (writable _); [| done]. injection Hpng as ->. by frame_done.
Qed.

Lemma process_entry_passthrough (W : World) (zip_ref : ZipRef W) (zi : ZipInfo.t)
    (f : ZipExtFile W) (e : exn) (data : bytes) (s : State) :
  ZipInfo.file_size zi ≠ 0 ->
  file_ext zi ∈ ALLOWED_EXTENSIONS ->
  zopen W zip_ref zi = Ok f ->
  attempt W zi f = Raise e ->
  passthrough W zi f = Ok data ->
  ∃ calls,
    calls ⊆ [CallImageOpen; CallRemove; CallSave] ∧
    process_entry W zip_ref zi s =
    (Ok tt,
     mkState (out_zip s ++ [(ZipInfo.filename zi, data)]) (processed_files s)
             (trace s ++ CallOpen (ZipInfo.filename zi) :: calls
                ++ [Log WARNING ("Error processing " ++ ZipInfo.filename zi ++ ": "
                                 ++ str_exn W e);
                    CallOpen (ZipInfo.filename zi); CallRead])).
Proof.
  intros Hsize Hext Hopen Hpng Hpass. rewrite process_entry_candidate by done.
  unfold attempt, passthrough, to_png, png_name in *. run_step. rewrite Hopen.
  destruct (ZipExtFile_read W f) as [data' | e4]; [| done].
  destruct (writable (ZipInfo.filename zi)); [| done]. injection Hpass as ->.
  destruct (Image_open_convert W f) as [img | e1].
  - destruct (rembg_remove W img) as [res | e2].
    + destruct (save_png W res) as [png | e3].
      * destruct (writable _); [done |]. injection Hpng as <-.
        exists [CallImageOpen; CallRemove; CallSave].
        split; [set_unfold; tauto | by frame_done].
      * injection Hpng as ->. exists [CallImageOpen; CallRemove; CallSave].
        split; [set_unfold; tauto | by frame_done].
    + injection Hpng as ->. exists [CallImageOpen; CallRemove].
      split; [set_unfold; tauto | by frame_done].
  - injection Hpng as ->. exists [CallImageOpen].
    split; [set_unfold; tauto | by frame_done].
Qed.

Lemma process_entry_dropped (W : World) (zip_ref : ZipRef W) (zi : ZipInfo.t)
    (f : ZipExtFile W) (e1 e2 : exn) (s : State) :
  ZipInfo.file_size zi ≠ 0 ->
  file_ext zi ∈ ALLOWED_EXTENSIONS ->
  zopen W zip_ref zi = Ok f ->
  attempt W zi f = Raise e1 ->
  passthrough W zi f = Raise e2 ->
  ∃ calls,
    calls ⊆ [CallImageOpen; CallRemove; CallSave] ∧
    process_entry W zip_ref zi s =
    (Ok tt,
     mkState (out_zip s) (processed_files s)
             (trace s ++ CallOpen (ZipInfo.filename zi) :: calls
                ++ [Log WARNING ("Error processing " ++ ZipInfo.filename zi ++ ": "
                                 ++ str_exn W e1);
                    CallOpen (ZipInfo.filename zi); CallRead;
                    Log ERROR ("Failed to process " ++ ZipInfo.filename zi ++ ": "
                               ++ str_exn W e2)])).
Proof.
  intros Hsize Hext Hopen Hpng Hpass. rewrite process_entry_candidate by done.
  unfold attempt, passthrough, to_png, png_name in *. run_step. rewrite Hopen.
  destruct (Image_open_convert W f) as [img | e].
  - destruct (rembg_remove W img) as [res | e].
    + destruct (save_png W res) as [png | e].
      * destruct (writable (_ ++ ".png")); [done |]. injection Hpng as <-.
        exists [CallImageOpen; CallRemove; CallSave].
        split; [set_unfold; tauto |].
        destruct (ZipExtFile_read W f) as [data | e4].
        -- destruct (writable (ZipInfo.filename zi)); [done |]. injection Hpass as <-.
           by frame_done.
        -- injection Hpass as ->. by frame_done.
      * injection Hpng as ->. exists [CallImageOpen; CallRemove; CallSave].
        split; [set_unfold; tauto |].
        destruct (ZipExtFile_read W f) as [data | e4].
        -- destruct (writable (ZipInfo.filename zi)); [done |]. injection Hpass as <-.
           by frame_done.
        -- injection Hpass as ->. by frame_done.
    + injection Hpng as ->. exists [CallImageOpen; CallRemove].
      split; [set_unfold; tauto |].
      destruct (ZipExtFile_read W f) as [data | e4].
      * destruct (writable (ZipInfo.filename zi)); [done |]. injection Hpass as <-.
        by frame_done.
      * injection Hpass as ->. by frame_done.
  - injection Hpng as ->. exists [CallImageOpen].
    split; [set_unfold; tauto |].
    destruct (ZipExtFile_read W f) as [data | e4].
    + destruct (writable (ZipInfo.filename zi)); [done |]. injection Hpass as <-.
      by frame_done.
    + injection Hpass as ->. by frame_done.
Qed.

Lemma process_entry_open_fails (W : World) (zip_ref : ZipRef W) (zi : ZipInfo.t)
    (e : exn) (s : State) :
  ZipInfo.file_size zi ≠ 0 ->
  file_ext zi ∈ ALLOWED_EXTENSIONS ->
  zopen W zip_ref zi = Raise e ->
  process_entry W zip_ref zi s =
  (Ok tt,
   mkState (out_zip s) (processed_files s)
           (trace s ++ [CallOpen (ZipInfo.filename zi);
                         Log ERROR ("Failed to process " ++ ZipInfo.filename zi ++ ": "
                                    ++ str_exn W e)])).
Proof.
  intros Hsize Hext Hopen. rewrite process_entry_candidate by done.
  run_step. rewrite Hopen. by frame_done.
Qed.

(** ** The whole request *)

Lemma latin1_append (a b : string) :
  Str.latin1 (a ++ b) = Str.latin1 a && Str.latin1 b.
Proof.
  induction a as [| c a IH]; [reflexivity |].
  rewrite append_cons. cbn [Str.latin1]. by rewrite IH, andb_assoc.
Qed.

Lemma latin1_pretty_N_go (x : N) (s : string) :
  Str.latin1 s = true -> Str.latin1 (pretty_N_go x s) = true.
Proof.
  revert s. induction (N.lt_wf_0 x) as [x _ IH]; intros s Hs.
  destruct (decide (x = 0)%N) as [-> | Hx]; [by rewrite pretty_N_go_0 |].
  rewrite pretty_N_go_step by lia. apply IH.
  - apply N.div_lt; lia.
  - cbn [Str.latin1]. rewrite Hs, andb_true_r.
    unfold pretty_N_char. by repeat case_match.
Qed.

(** The decimal text of a size is ASCII. *)
Lemma latin1_pretty_nat (n : nat) : Str.latin1 (pretty n) = true.
Proof.
  unfold pretty, pretty_nat, pretty, pretty_N.
  case_decide; [reflexivity |]. by apply latin1_pretty_N_go.
Qed.

Lemma first_unencodable_headers (value : string) (n : nat) :
  first_unencodable [("Content-Disposition", value); ("Content-Length", pretty n)]
  = if Str.latin1 value then None else Some value.
Proof.
  cbn [first_unencodable].
  change (Str.latin1 (Str.lower "Content-Disposition")) with true.
  change (Str.latin1 (Str.lower "Content-Length")) with true.
  cbn [negb]. rewrite latin1_pretty_nat.
  by destruct (Str.latin1 value).
Qed.

Lemma serve_opened (W : World) (file : option UploadFile.t) (f : UploadFile.t)
    (filename : string) (zip_ref : ZipRef W) :
  named_file file = Some (f, filename) ->
  Str.endswith (Str.lower filename) ".zip" = true ->
  UploadFile.contents f ≠ [] ->
  ZipFile_r W (UploadFile.contents f) = Ok zip_ref ->
  serve W file =
  if bool_decide (namelist W zip_ref = []) then
    Raise (HTTPException 500 ("Error processing file: " ++ HTTPException_str W 400 "ZIP file is empty"))
  else if bool_decide (processed_files (loop_end W zip_ref) = 0%nat) then
    Raise (HTTPException 500 ("Error processing file: "
                              ++ HTTPException_str W 400 "No valid images found in the ZIP file"))
  else if Str.latin1 (os_path.basename filename) then
    Ok (success_response W filename (out_zip (loop_end W zip_ref)))
  else
    Raise (HTTPException 500
             ("Error processing file: "
              ++ UnicodeEncodeError_str W
                   ("attachment; filename=processed_" ++ os_path.basename filename))).
Proof.
  intros Hnamed Hzip Hcontents Hopen.
  unfold serve, remove_bg_zip. rewrite Hnamed, Hzip. cbn [negb].
  rewrite (bool_decide_eq_false_2 _ Hcontents).
  unfold process_zip, new_StreamingResponse. run_step. rewrite Hopen.
  destruct (bool_decide (namelist W zip_ref = [])); [reflexivity |].
  rewrite for_each_frame, after_loop_extend, loop_end_after_loop.
  cbn [extend out_zip processed_files trace app Nat.add].
  destruct (bool_decide (processed_files _ = 0%nat)); [reflexivity |].
  cbn [fst snd out_zip processed_files trace].
  rewrite first_unencodable_headers, latin1_append.
  change (Str.latin1 "attachment; filename=processed_") with true. cbn [andb].
  by destruct (Str.latin1 (os_path.basename filename)).
Qed.

(** ** Properties of a turn of the loop *)

(** C6: a member whose declared size is 0 is skipped: its turn writes no
    member and leaves the counter alone, and the only thing it does is log
    the warning.  This holds for every name and every world, so neither the
    extension nor any external capability is consulted. *)
Theorem empty_entry_skipped (W : World) (zip_ref : ZipRef W) (zi : ZipInfo.t) (s : State) :
  ZipInfo.file_size zi = 0 ->
  process_entry W zip_ref zi s =
  (Ok tt,
   mkState (out_zip s) (processed_files s)
           (trace s ++ [Log WARNING ("Skipping empty file: " ++ ZipInfo.filename zi)])).
Proof.
  intros Hsize. unfold process_entry. by rewrite Hsize.
Qed.

Lemma empty_entry_skipped_witness :
  process_entry Toy.W_photos [] Toy.empty_png initial =
  (Ok tt, mkState [] 0 [Log WARNING "Skipping empty file: empty.png"]).
Proof.
  apply (empty_entry_skipped Toy.W_photos [] Toy.empty_png initial). reflexivity.
Defined.

(** C7: a non-empty member whose lower-cased extension is outside the
    allow-list is dropped in silence: its turn changes nothing at all, no
    member, no count, no log line, no call. *)
Theorem other_extension_dropped (W : World) (zip_ref : ZipRef W) (zi : ZipInfo.t) (s : State) :
  ZipInfo.file_size zi ≠ 0 ->
  file_ext zi ∉ ALLOWED_EXTENSIONS ->
  process_entry W zip_ref zi s = (Ok tt, s).
Proof.
  intros Hsize Hext. unfold process_entry.
  apply Z.eqb_neq in Hsize. rewrite Hsize.
  unfold file_ext in Hext. by rewrite decide_False.
Qed.

Lemma other_extension_dropped_witness :
  process_entry Toy.W_photos [] Toy.notes_txt initial = (Ok tt, initial).
Proof.
  apply (other_extension_dropped Toy.W_photos [] Toy.notes_txt initial).
  - vm_compute. discriminate.
  - by vm_compute.
Defined.

(** C5, as the specification words it, fails: a member whose name is so
    long that the archive writer refuses the new name decodes, loses its
    background and encodes, and yet is neither written nor counted. *)
Lemma long_name_not_written :
  ¬ (∀ (W : World) (zip_ref : ZipRef W) (zi : ZipInfo.t) (f : ZipExtFile W)
       (img result : PILImage W) (png : bytes) (s : State),
       ZipInfo.file_size zi ≠ 0 ->
       file_ext zi ∈ ALLOWED_EXTENSIONS ->
       zopen W zip_ref zi = Ok f ->
       Image_open_convert W f = Ok img ->
       rembg_remove W img = Ok result ->
       save_png W result = Ok png ->
       out_zip (process_entry W zip_ref zi s).2
       = (out_zip s
          ++ [(((os_path.splitext (ZipInfo.filename zi)).1 ++ ".png")%string, png)])%list
       ∧ processed_files (process_entry W zip_ref zi s).2 = S (processed_files s)).
Proof.
  intros Hclaim.
  destruct (Hclaim Toy.W_photos [] Toy.long_jpg Toy.long_jpg
              [x61; x61; x61] [x00; x61; x61; x61] [x89; x00; x61; x61; x61] initial)
    as [_ Hcount].
  - vm_compute. discriminate.
  - by vm_compute.
  - reflexivity.
  - vm_compute. reflexivity.
  - reflexivity.
  - reflexivity.
  - vm_compute in Hcount. discriminate.
Qed.

(** C5, amended: a non-empty member with a recognized extension that opens,
    decodes, has its background removed and encodes, and whose new name the
    archive writer takes (at most 65535 bytes), gets exactly one member in
    the output, named by its own name with the extension replaced by
    [.png], and adds exactly one to the counter; so after any run of the
    loop the counter has grown by the number of members processed this
    way. *)
Theorem processed_entry_written (W : World) (zip_ref : ZipRef W) (zi : ZipInfo.t)
    (f : ZipExtFile W) (img result : PILImage W) (png : bytes) :
  ZipInfo.file_size zi ≠ 0 ->
  file_ext zi ∈ ALLOWED_EXTENSIONS ->
  zopen W zip_ref zi = Ok f ->
  Image_open_convert W f = Ok img ->
  rembg_remove W img = Ok result ->
  save_png W result = Ok png ->
  writable ((os_path.splitext (ZipInfo.filename zi)).1 ++ ".png") = true ->
  let name := ZipInfo.filename zi in
  let base := (os_path.splitext name).1 in
  (∀ s, (process_entry W zip_ref zi s).1 = Ok tt
        ∧ out_zip (process_entry W zip_ref zi s).2
          = (out_zip s ++ [((base ++ ".png")%string, png)])%list
        ∧ processed_files (process_entry W zip_ref zi s).2 = S (processed_files s))
  ∧ base ++ (os_path.splitext name).2 = name
  ∧ processed_ok W zip_ref zi = true
  ∧ (∀ l s, processed_files (for_each l (process_entry W zip_ref) s).2
            = (processed_files s
               + length (filter (λ zi', processed_ok W zip_ref zi' = true) l))%nat).
Proof.
  intros Hsize Hext Hopen Himg Hrem Hsave Hname name base.
  assert (Hpng : attempt W zi f = Ok png).
  { unfold attempt, to_png, png_name. by rewrite Himg, Hrem, Hsave, Hname. }
  repeat split.
  - by rewrite (process_entry_png W zip_ref zi f png s).
  - by rewrite (process_entry_png W zip_ref zi f png s).
  - by rewrite (process_entry_png W zip_ref zi f png s).
  - apply splitext_join.
  - unfold processed_ok, is_candidate, to_png, png_name. apply Z.eqb_neq in Hsize.
    by rewrite Hsize, (bool_decide_eq_true_2 _ Hext), Hopen, Himg, Hrem, Hsave.
  - intros l s. rewrite for_each_frame. apply processed_files_after_loop.
Qed.

Lemma processed_entry_written_witness :
  out_zip (process_entry Toy.W_photos [] Toy.a_jpg initial).2
  = [("a.png", [x89; x00; x61; x61; x61])]
  ∧ processed_files (process_entry Toy.W_photos [] Toy.a_jpg initial).2 = 1%nat.
Proof.
  destruct (processed_entry_written Toy.W_photos [] Toy.a_jpg Toy.a_jpg
              [x61; x61; x61] [x00; x61; x61; x61] [x89; x00; x61; x61; x61])
    as [Hturn _].
  - vm_compute. discriminate.
  - by vm_compute.
  - reflexivity.
  - reflexivity.
  - reflexivity.
  - reflexivity.
  - reflexivity.
  - destruct (Hturn initial) as (_ & Hout & Hcount). split; assumption.
Defined.

(** C4, as the specification words it, fails: a damaged member that opens
    but cannot be read to the end makes the decoding raise and the
    pass-through raise too, and then the output holds no member under the
    original name. *)
Lemma failed_image_can_be_lost :
  ¬ (∀ (W : World) (zip_ref : ZipRef W) (zi : ZipInfo.t) (f : ZipExtFile W) (e : exn) (s : State),
       ZipInfo.file_size zi ≠ 0 ->
       file_ext zi ∈ ALLOWED_EXTENSIONS ->
       zopen W zip_ref zi = Ok f ->
       to_png W f = Raise e ->
       ∃ data, (ZipInfo.filename zi, data) ∈ out_zip (process_entry W zip_ref zi s).2).
Proof.
  intros Hclaim.
  destruct (Hclaim Toy.W_crc [] Toy.corrupt_png Toy.corrupt_png
              (BadZipFile "Bad CRC-32 for file 'corrupt.png'") initial)
    as [data Hin].
  - vm_compute. discriminate.
  - by vm_compute.
  - reflexivity.
  - reflexivity.
  - vm_compute in Hin. by apply elem_of_nil in Hin.
Qed.

(** C4, amended: when the decoding, the removal or the encoding of a
    non-empty member with a recognized extension raises, and the member can
    be read again for the pass-through, and the archive writer takes its
    name (at most 65535 bytes), the turn writes one member with the
    original name and the bytes read from the original, and the counter
    stays as it was. *)
Theorem failed_image_passed_through (W : World) (zip_ref : ZipRef W) (zi : ZipInfo.t)
    (f : ZipExtFile W) (e : exn) (data : bytes) (s : State) :
  ZipInfo.file_size zi ≠ 0 ->
  file_ext zi ∈ ALLOWED_EXTENSIONS ->
  zopen W zip_ref zi = Ok f ->
  to_png W f = Raise e ->
  ZipExtFile_read W f = Ok data ->
  writable (ZipInfo.filename zi) = true ->
  (process_entry W zip_ref zi s).1 = Ok tt
  ∧ out_zip (process_entry W zip_ref zi s).2 = (out_zip s ++ [(ZipInfo.filename zi, data)])%list
  ∧ processed_files (process_entry W zip_ref zi s).2 = processed_files s.
Proof.
  intros Hsize Hext Hopen Hpng Hread Hname.
  destruct (process_entry_passthrough W zip_ref zi f e data s) as (calls & _ & ->);
    try done.
  - unfold attempt. by rewrite Hpng.
  - unfold passthrough. by rewrite Hread, Hname.
Qed.

Lemma failed_image_passed_through_witness :
  out_zip (process_entry Toy.W_photos [] Toy.corrupt_png initial).2
  = [("corrupt.png", [x61; x61; x61; x61])]
  ∧ processed_files (process_entry Toy.W_photos [] Toy.corrupt_png initial).2 = 0%nat.
Proof.
  destruct (failed_image_passed_through Toy.W_photos [] Toy.corrupt_png Toy.corrupt_png
              (OtherError "cannot identify image file") [x61; x61; x61; x61] initial)
    as (_ & Hout & Hcount).
  - vm_compute. discriminate.
  - by vm_compute.
  - reflexivity.
  - reflexivity.
  - reflexivity.
  - reflexivity.
  - split; assumption.
Defined.

(** C10: a non-empty member with a recognized extension is left out of the
    output, with the counter unchanged, when opening it raises (and then no
    decoding is attempted), and when the first attempt raises (in the
    decoding, the removal, the encoding, or the write under the new name)
    and the pass-through raises too, in the re-read or in the write under
    the original name.  The turn itself raises nothing, so the loop goes on
    with the next member. *)
Theorem unreadable_entry_omitted (W : World) (zip_ref : ZipRef W) (zi : ZipInfo.t) (s : State) :
  ZipInfo.file_size zi ≠ 0 ->
  file_ext zi ∈ ALLOWED_EXTENSIONS ->
  (∃ e, zopen W zip_ref zi = Raise e)
  ∨ (∃ f, zopen W zip_ref zi = Ok f
          ∧ ((∃ e1, to_png W f = Raise e1)
             ∨ (∃ png, to_png W f = Ok png
                       ∧ writable ((os_path.splitext (ZipInfo.filename zi)).1 ++ ".png")
                         = false))
          ∧ ((∃ e2, ZipExtFile_read W f = Raise e2)
             ∨ (∃ data, ZipExtFile_read W f = Ok data
                        ∧ writable (ZipInfo.filename zi) = false))) ->
  ∃ events,
    process_entry W zip_ref zi s
    = (Ok tt, mkState (out_zip s) (processed_files s) (trace s ++ events))
    ∧ (∀ e, zopen W zip_ref zi = Raise e ->
            events = [CallOpen (ZipInfo.filename zi);
                      Log ERROR ("Failed to process " ++ ZipInfo.filename zi ++ ": "
                                 ++ str_exn W e)])
    ∧ (∀ rest, for_each (zi :: rest) (process_entry W zip_ref) s
               = for_each rest (process_entry W zip_ref)
                   (mkState (out_zip s) (processed_files s) (trace s ++ events))).
Proof.
  intros Hsize Hext [[e Hopen] | (f & Hopen & Hfirst & Hsecond)].
  - eexists. split; [by apply process_entry_open_fails |]. split.
    + intros e' He'. congruence.
    + intros rest. rewrite for_each_cons.
      by rewrite (process_entry_open_fails W zip_ref zi e s).
  - assert (∃ e1, attempt W zi f = Raise e1) as [e1 Hattempt].
    { unfold attempt, png_name.
      destruct Hfirst as [[e1 ->] | (png & -> & ->)]; eauto. }
    assert (∃ e2, passthrough W zi f = Raise e2) as [e2 Hpass].
    { unfold passthrough.
      destruct Hsecond as [[e2 ->] | (data & -> & ->)]; eauto. }
    destruct (process_entry_dropped W zip_ref zi f e1 e2 s) as (calls & _ & Hrun); try done.
    eexists. split; [exact Hrun |]. split.
    + intros e' He'. congruence.
    + intros rest. by rewrite for_each_cons, Hrun.
Qed.

Lemma unreadable_entry_omitted_witness :
  out_zip (for_each [Toy.long_jpg; Toy.a_jpg] (process_entry Toy.W_photos []) initial).2
  = [("a.png", [x89; x00; x61; x61; x61])].
Proof.
  destruct (unreadable_entry_omitted Toy.W_photos [] Toy.long_jpg initial)
    as (events & _ & _ & Hrest).
  - vm_compute. discriminate.
  - by vm_compute.
  - right. exists Toy.long_jpg. split; [reflexivity |]. split.
    + right. exists [x89; x00; x61; x61; x61]. split; vm_compute; reflexivity.
    + right. exists [x61; x61; x61]. split; vm_compute; reflexivity.
  - rewrite Hrest. reflexivity.
Defined.

(** C9: two distinct non-empty members [a.jpg] and [a.webp] that are both
    processed give two output members that are both named [a.png]: the
    writer appends, and nothing makes output names unique. *)
Theorem same_stem_same_output_name (W : World) (zip_ref : ZipRef W) (zi1 zi2 : ZipInfo.t)
    (f1 f2 : ZipExtFile W) (png1 png2 : bytes) (s : State) :
  ZipInfo.filename zi1 = "a.jpg" ->
  ZipInfo.filename zi2 = "a.webp" ->
  ZipInfo.file_size zi1 ≠ 0 ->
  ZipInfo.file_size zi2 ≠ 0 ->
  zopen W zip_ref zi1 = Ok f1 ->
  to_png W f1 = Ok png1 ->
  zopen W zip_ref zi2 = Ok f2 ->
  to_png W f2 = Ok png2 ->
  zi1 ≠ zi2
  ∧ (for_each [zi1; zi2] (process_entry W zip_ref) s).1 = Ok tt
  ∧ out_zip (for_each [zi1; zi2] (process_entry W zip_ref) s).2
    = (out_zip s ++ [("a.png", png1); ("a.png", png2)])%list
  ∧ processed_files (for_each [zi1; zi2] (process_entry W zip_ref) s).2
    = S (S (processed_files s)).
Proof.
  intros Hn1 Hn2 Hs1 Hs2 Ho1 Hp1 Ho2 Hp2.
  assert (He1 : file_ext zi1 ∈ ALLOWED_EXTENSIONS) by (unfold file_ext; rewrite Hn1; by vm_compute).
  assert (He2 : file_ext zi2 ∈ ALLOWED_EXTENSIONS) by (unfold file_ext; rewrite Hn2; by vm_compute).
  split; [intros ->; by rewrite Hn1 in Hn2 |].
  assert (Ha1 : attempt W zi1 f1 = Ok png1)
    by (unfold attempt, png_name; by rewrite Hp1, Hn1).
  assert (Ha2 : attempt W zi2 f2 = Ok png2)
    by (unfold attempt, png_name; by rewrite Hp2, Hn2).
  rewrite for_each_cons, (process_entry_png W zip_ref zi1 f1 png1) by done.
  rewrite for_each_cons, (process_entry_png W zip_ref zi2 f2 png2) by done.
  unfold png_name. rewrite Hn1, Hn2. cbn. by rewrite <- app_assoc.
Qed.

Lemma same_stem_same_output_name_witness :
  out_zip (for_each [Toy.a_jpg; Toy.a_webp] (process_entry Toy.W_photos []) initial).2
  = [("a.png", [x89; x00; x61; x61; x61]); ("a.png", [x89; x00; x61; x61])].
Proof.
  destruct (same_stem_same_output_name Toy.W_photos [] Toy.a_jpg Toy.a_webp
              Toy.a_jpg Toy.a_webp [x89; x00; x61; x61; x61] [x89; x00; x61; x61] initial)
    as (_ & _ & Hout & _).
  - reflexivity.
  - reflexivity.
  - vm_compute. discriminate.
  - vm_compute. discriminate.
  - reflexivity.
  - reflexivity.
  - reflexivity.
  - reflexivity.
  - exact Hout.
Defined.

(** ** Properties of the whole request *)

Lemma namelist_nil (W : World) (zip_ref : ZipRef W) :
  namelist W zip_ref = [] ↔ infolist W zip_ref = [].
Proof.
  unfold namelist. split; [apply fmap_nil_inv | by intros ->].
Qed.

(** C1, on the code: for a named [.zip] upload with bytes that open as an
    archive with at least one member, a loop that ends with
    [processed_files = 0] does not give the 400 reply that line 126 raises.
    That [HTTPException] is raised inside the inner [try], whose
    [except Exception] catches it and raises a 500 in its place. *)
Theorem zero_processed_reply (W : World) (file : option UploadFile.t) (f : UploadFile.t)
    (filename : string) (zip_ref : ZipRef W) :
  named_file file = Some (f, filename) ->
  Str.endswith (Str.lower filename) ".zip" = true ->
  UploadFile.contents f ≠ [] ->
  ZipFile_r W (UploadFile.contents f) = Ok zip_ref ->
  infolist W zip_ref ≠ [] ->
  processed_files (loop_end W zip_ref) = 0%nat ->
  serve W file
  = Raise (HTTPException 500
             ("Error processing file: "
              ++ HTTPException_str W 400 "No valid images found in the ZIP file"))
  ∧ serve W file ≠ Raise (HTTPException 400 "No valid images found in the ZIP file").
Proof.
  intros Hnamed Hzip Hcontents Hopen Hlist Hzero.
  rewrite (serve_opened W file f filename zip_ref) by done.
  rewrite bool_decide_eq_false_2 by (by rewrite namelist_nil).
  rewrite bool_decide_eq_true_2 by done.
  split; [reflexivity | discriminate].
Qed.

Lemma zero_processed_reply_witness :
  serve Toy.W_corrupt (Some (Toy.upload "data.zip"))
  = Raise (HTTPException 500
             "Error processing file: 400: No valid images found in the ZIP file").
Proof.
  destruct (zero_processed_reply Toy.W_corrupt (Some (Toy.upload "data.zip"))
              (Toy.upload "data.zip") "data.zip" [Toy.corrupt_png]) as [Hreply _].
  - reflexivity.
  - reflexivity.
  - discriminate.
  - reflexivity.
  - discriminate.
  - reflexivity.
  - exact Hreply.
Defined.

(** C2, on the code: for a named [.zip] upload with bytes that open as an
    archive with no member, the reply is a 500, not the 400 that line 88
    raises: the inner [except Exception] catches that [HTTPException]
    too. *)
Theorem empty_archive_reply (W : World) (file : option UploadFile.t) (f : UploadFile.t)
    (filename : string) (zip_ref : ZipRef W) :
  named_file file = Some (f, filename) ->
  Str.endswith (Str.lower filename) ".zip" = true ->
  UploadFile.contents f ≠ [] ->
  ZipFile_r W (UploadFile.contents f) = Ok zip_ref ->
  infolist W zip_ref = [] ->
  serve W file
  = Raise (HTTPException 500
             ("Error processing file: " ++ HTTPException_str W 400 "ZIP file is empty"))
  ∧ ∀ detail, serve W file ≠ Raise (HTTPException 400 detail).
Proof.
  intros Hnamed Hzip Hcontents Hopen Hlist.
  rewrite (serve_opened W file f filename zip_ref) by done.
  rewrite bool_decide_eq_true_2 by (by rewrite namelist_nil).
  split; [reflexivity | discriminate].
Qed.

Lemma empty_archive_reply_witness :
  serve Toy.W_empty (Some (Toy.upload "data.zip"))
  = Raise (HTTPException 500 "Error processing file: 400: ZIP file is empty").
Proof.
  destruct (empty_archive_reply Toy.W_empty (Some (Toy.upload "data.zip"))
              (Toy.upload "data.zip") "data.zip" []) as [Hreply _].
  - reflexivity.
  - reflexivity.
  - discriminate.
  - reflexivity.
  - reflexivity.
  - exact Hreply.
Defined.



(** An upload named with Cyrillic letters: the archive is processed, the
    header cannot be encoded, and the inner handler answers 500. *)
Example cyrillic_name_is_500 :
  serve Toy.W_photos (Some (Toy.upload "ф.zip"))
  = Raise (HTTPException 500
             ("Error processing file: "
              ++ UnicodeEncodeError_str Toy.W_photos "attachment; filename=processed_ф.zip")).
Proof. vm_compute. reflexivity. Qed.

Lemma present_file (W : World) (file : option UploadFile.t) :
  check_fails W file MissingFile = false ->
  ∃ f name, file = Some f ∧ UploadFile.filename f = Some name
            ∧ named_file file = Some (f, name).
Proof.
  destruct file as [[[[| a name] |] contents] |]; cbn; try discriminate.
  intros _. eauto.
Qed.

(** C3: the validator checks, in this order, that a file with a name is
    there, that the name ends in [.zip], that the body is not empty and that
    the body opens as an archive.  The request is answered by the earliest
    check it fails, with status 400 and the message of that check, whatever
    later checks it fails as well; and the four messages differ. *)
Theorem validation_order (W : World) (file : option UploadFile.t) (c : check) :
  check_fails W file c = true ->
  (∀ c', (check_rank c' < check_rank c)%nat -> check_fails W file c' = false) ->
  serve W file = Raise (HTTPException 400 (check_message c))
  ∧ (∀ c1 c2, check_message c1 = check_message c2 -> c1 = c2).
Proof.
  intros Hfails Hearlier. split; [| by intros [] []].
  destruct c.
  - cbn in Hfails.
    destruct file as [[[[| a name] |] contents] |]; try discriminate; reflexivity.
  - destruct (present_file W file) as (f & name & -> & Hname & Hnamed);
      [apply Hearlier; cbn; lia |].
    cbn in Hfails. rewrite Hname in Hfails.
    unfold serve, remove_bg_zip. by rewrite Hnamed, Hfails.
  - destruct (present_file W file) as (f & name & -> & Hname & Hnamed);
      [apply Hearlier; cbn; lia |].
    pose proof (Hearlier WrongExtension ltac:(cbn; lia)) as Hext.
    cbn in Hext, Hfails. rewrite Hname in Hext. apply negb_false_iff in Hext.
    unfold serve, remove_bg_zip. rewrite Hnamed, Hext. cbn [negb].
    by destruct (UploadFile.contents f).
  - destruct (present_file W file) as (f & name & -> & Hname & Hnamed);
      [apply Hearlier; cbn; lia |].
    pose proof (Hearlier WrongExtension ltac:(cbn; lia)) as Hext.
    pose proof (Hearlier EmptyBody ltac:(cbn; lia)) as Hbody.
    cbn in Hext, Hbody, Hfails. rewrite Hname in Hext. apply negb_false_iff in Hext.
    unfold serve, remove_bg_zip. rewrite Hnamed, Hext. cbn [negb].
    destruct (UploadFile.contents f) as [| b contents]; [discriminate |].
    rewrite bool_decide_eq_false_2 by discriminate.
    unfold process_zip. run_step.
    by destruct (ZipFile_r W (b :: contents)) as [zip_ref | [| msg |]].
Qed.

Lemma validation_order_witness :
  check_fails Toy.W_bad (Some (UploadFile.mk (Some "a.txt") [])) EmptyBody = true
  ∧ check_fails Toy.W_bad (Some (UploadFile.mk (Some "a.txt") [])) MalformedContainer = true
  ∧ serve Toy.W_bad (Some (UploadFile.mk (Some "a.txt") []))
    = Raise (HTTPException 400 "File must be a ZIP file").
Proof.
  split; [reflexivity |]. split; [reflexivity |].
  apply (validation_order Toy.W_bad (Some (UploadFile.mk (Some "a.txt") [])) WrongExtension).
  - reflexivity.
  - intros [] Hrank; cbn in Hrank; try lia. reflexivity.
Defined.

(** ** The loop as a whole *)

Lemma is_candidate_spec (zi : ZipInfo.t) :
  is_candidate zi = true ↔ ZipInfo.file_size zi ≠ 0 ∧ file_ext zi ∈ ALLOWED_EXTENSIONS.
Proof.
  unfold is_candidate. rewrite andb_true_iff, negb_true_iff, Z.eqb_neq.
  by rewrite bool_decide_eq_true.
Qed.

Lemma is_candidate_false (zi : ZipInfo.t) :
  is_candidate zi = false ->
  ZipInfo.file_size zi = 0 ∨ (ZipInfo.file_size zi ≠ 0 ∧ file_ext zi ∉ ALLOWED_EXTENSIONS).
Proof.
  unfold is_candidate. intros H.
  destruct (Z.eqb_spec (ZipInfo.file_size zi) 0) as [Hz | Hz]; [by left | right].
  split; [done |]. cbn in H. by apply bool_decide_eq_false in H.
Qed.

Lemma out_zip_turn (W : World) (zip_ref : ZipRef W) (zi : ZipInfo.t) :
  out_zip (turn W zip_ref zi) = written W zip_ref zi.
Proof.
  unfold turn, written, process_entry, is_candidate, file_ext, to_png, png_name.
  destruct (ZipInfo.file_size zi =? 0); [reflexivity |].
  cbn [negb andb].
  destruct (decide (file_ext zi ∈ ALLOWED_EXTENSIONS)) as [Hext | Hext]; unfold file_ext in Hext.
  2: { by rewrite (bool_decide_eq_false_2 _ Hext), decide_False. }
  rewrite (bool_decide_eq_true_2 _ Hext), decide_True by done.
  run_step. turn_cases W zip_ref zi; reflexivity.
Qed.

Lemma mjoin_cons {A} (x : list A) (l : list (list A)) : mjoin (x :: l) = (x ++ mjoin l)%list.
Proof. reflexivity. Qed.

Lemma out_zip_after_loop (W : World) (zip_ref : ZipRef W) (l : list ZipInfo.t) (s : State) :
  out_zip (after_loop W zip_ref l s) = (out_zip s ++ mjoin (written W zip_ref <$> l))%list.
Proof.
  revert s. induction l as [| zi l IH]; intros s.
  - cbn. by rewrite app_nil_r.
  - rewrite after_loop_cons, IH. cbn [extend out_zip].
    by rewrite out_zip_turn, fmap_cons, mjoin_cons, app_assoc.
Qed.

Lemma trace_after_loop (W : World) (zip_ref : ZipRef W) (l : list ZipInfo.t) (s : State) :
  ∃ events, trace (after_loop W zip_ref l s) = (trace s ++ events)%list.
Proof.
  rewrite after_loop_extend. cbn. eauto.
Qed.

Lemma written_length (W : World) (zip_ref : ZipRef W) (zi : ZipInfo.t) :
  (length (written W zip_ref zi) =
   if processed_ok W zip_ref zi then 1 else length (written W zip_ref zi))%nat
  ∧ (length (written W zip_ref zi) <= if is_candidate zi then 1 else 0)%nat.
Proof.
  unfold written, processed_ok.
  destruct (is_candidate zi); cbn [andb]; [| by split].
  destruct (zopen W zip_ref zi) as [f | e]; [| cbn; split; lia].
  destruct (to_png W f) as [png | e1]; destruct (writable (png_name zi));
    destruct (ZipExtFile_read W f); destruct (writable (ZipInfo.filename zi));
    cbn; split; lia.
Qed.

(** X1: the loop over the members never raises, whatever the external
    capabilities do and whether or not the archive writer takes the names;
    it only appends to the output archive and to the trace.  The archive it leaves is what it started with followed by the
    contributions of the members, in the order of the members, and the
    counter has grown by the number of members that were processed. *)
Theorem loop_contains_errors (W : World) (zip_ref : ZipRef W) (l : list ZipInfo.t) (s : State) :
  (for_each l (process_entry W zip_ref) s).1 = Ok tt
  ∧ out_zip (for_each l (process_entry W zip_ref) s).2
    = (out_zip s ++ mjoin (written W zip_ref <$> l))%list
  ∧ processed_files (for_each l (process_entry W zip_ref) s).2
    = (processed_files s + length (filter (λ zi, processed_ok W zip_ref zi = true) l))%nat
  ∧ ∃ events, trace (for_each l (process_entry W zip_ref) s).2 = (trace s ++ events)%list.
Proof.
  rewrite for_each_frame. cbn [fst snd]. repeat split.
  - apply out_zip_after_loop.
  - apply processed_files_after_loop.
  - apply trace_after_loop.
Qed.

Lemma counts_bounded (W : World) (zip_ref : ZipRef W) (l : list ZipInfo.t) :
  (length (filter (λ zi, processed_ok W zip_ref zi = true) l)
   <= length (mjoin (written W zip_ref <$> l)))%nat
  ∧ (length (mjoin (written W zip_ref <$> l))
     <= length (filter (λ zi, is_candidate zi = true) l))%nat
  ∧ (length (filter (λ zi, is_candidate zi = true) l) <= length l)%nat.
Proof.
  induction l as [| zi l (IH1 & IH2 & IH3)]; [by cbn |].
  rewrite fmap_cons, !filter_cons, mjoin_cons, length_app.
  destruct (written_length W zip_ref zi) as [Hok Hcand].
  destruct (processed_ok W zip_ref zi) eqn:Hp; destruct (is_candidate zi) eqn:Hc;
    repeat case_decide; try congruence; cbn [length]; lia.
Qed.

(** X2: when the loop over an archive ends, the counter is at most the
    number of members of the output archive, which is at most the number of
    non-empty members with a recognized extension, which is at most the
    number of members of the input. *)
Theorem loop_end_counts (W : World) (zip_ref : ZipRef W) :
  (processed_files (loop_end W zip_ref) <= length (out_zip (loop_end W zip_ref)))%nat
  ∧ (length (out_zip (loop_end W zip_ref))
     <= length (filter (λ zi, is_candidate zi = true) (infolist W zip_ref)))%nat
  ∧ (length (filter (λ zi, is_candidate zi = true) (infolist W zip_ref))
     <= length (namelist W zip_ref))%nat.
Proof.
  rewrite loop_end_after_loop, out_zip_after_loop, processed_files_after_loop.
  unfold namelist. rewrite length_fmap. cbn [initial out_zip processed_files app Nat.add].
  apply counts_bounded.
Qed.

(** X3: empty members and members with other extensions are invisible:
    the loop over an archive leaves the same output archive and the same
    counter as the loop over its non-empty members with a recognized
    extension alone. *)
Theorem non_candidates_invisible (W : World) (zip_ref : ZipRef W) (l : list ZipInfo.t) (s : State) :
  let kept := filter (λ zi, is_candidate zi = true) l in
  out_zip (for_each l (process_entry W zip_ref) s).2
  = out_zip (for_each kept (process_entry W zip_ref) s).2
  ∧ processed_files (for_each l (process_entry W zip_ref) s).2
    = processed_files (for_each kept (process_entry W zip_ref) s).2.
Proof.
  intros kept. subst kept. rewrite !for_each_frame. cbn [snd].
  rewrite !out_zip_after_loop, !processed_files_after_loop. split.
  - f_equal. induction l as [| zi l IH]; [reflexivity |].
    rewrite filter_cons, fmap_cons, mjoin_cons, IH.
    destruct (is_candidate zi) eqn:Hcand.
    + by rewrite decide_True.
    + rewrite decide_False by done. unfold written at 1. by rewrite Hcand.
  - f_equal. induction l as [| zi l IH]; [reflexivity |].
    rewrite !filter_cons.
    destruct (is_candidate zi) eqn:Hcand.
    + rewrite (decide_True (P := true = true)) by done. rewrite filter_cons.
      destruct (decide _); cbn [length]; by rewrite IH.
    + assert (Hok : processed_ok W zip_ref zi = false)
        by (unfold processed_ok; by rewrite Hcand).
      rewrite (decide_False (P := false = true)) by done.
      rewrite decide_False by congruence. exact IH.
Qed.

(** X4: every member of the output archive comes from a non-empty member
    of the input with a recognized extension, and is named either as that
    member or as that member with its extension replaced by [.png]. *)
Theorem output_names (W : World) (zip_ref : ZipRef W) (name : string) (data : bytes) :
  (name, data) ∈ out_zip (loop_end W zip_ref) ->
  ∃ zi, zi ∈ infolist W zip_ref
        ∧ is_candidate zi = true
        ∧ (name = ZipInfo.filename zi
           ∨ name = (os_path.splitext (ZipInfo.filename zi)).1 ++ ".png").
Proof.
  rewrite loop_end_after_loop, out_zip_after_loop. cbn [initial out_zip app].
  intros Hin. apply list_elem_of_join in Hin as (ws & Hin & Hws).
  apply list_elem_of_fmap in Hws as (zi & -> & Hzi).
  exists zi. split; [done |].
  unfold written in Hin.
  destruct (is_candidate zi); [split; [done |] | by apply elem_of_nil in Hin].
  destruct (zopen W zip_ref zi) as [f | e]; [| by apply elem_of_nil in Hin].
  assert (Hpass : (name, data)
                  ∈ match ZipExtFile_read W f with
                    | Ok data =>
                        if writable (ZipInfo.filename zi)
                        then [(ZipInfo.filename zi, data)] else []
                    | Raise _ => []
                    end -> name = ZipInfo.filename zi).
  { destruct (ZipExtFile_read W f); [| by intros ?%elem_of_nil].
    destruct (writable (ZipInfo.filename zi)); [| by intros ?%elem_of_nil].
    intros ?%list_elem_of_singleton. congruence. }
  destruct (to_png W f) as [png | e1]; [| by left; apply Hpass].
  destruct (writable (png_name zi)); [| by left; apply Hpass].
  apply list_elem_of_singleton in Hin. right. unfold png_name in Hin. congruence.
Qed.

Lemma output_names_witness :
  ∃ zi, zi ∈ [Toy.a_jpg; Toy.notes_txt; Toy.empty_png; Toy.corrupt_png; Toy.a_webp]
        ∧ is_candidate zi = true
        ∧ ("corrupt.png" = ZipInfo.filename zi
           ∨ "corrupt.png" = (os_path.splitext (ZipInfo.filename zi)).1 ++ ".png").
Proof.
  apply (output_names Toy.W_photos
           [Toy.a_jpg; Toy.notes_txt; Toy.empty_png; Toy.corrupt_png; Toy.a_webp]
           "corrupt.png" [x61; x61; x61; x61]).
  vm_compute. do 1 apply list_elem_of_further. apply list_elem_of_here.
Defined.

(** ** The replies of the handler *)

Lemma serve_missing (W : World) (file : option UploadFile.t) :
  named_file file = None ->
  remove_bg_zip W file initial
  = (Raise (HTTPException 400 "No file provided"),
     mkState [] 0 [Log WARNING "Request rejected: No file provided or filename is empty"]).
Proof. intros Hnamed. unfold remove_bg_zip. by rewrite Hnamed. Qed.

Lemma serve_wrong_extension (W : World) (file : option UploadFile.t) (f : UploadFile.t)
    (filename : string) :
  named_file file = Some (f, filename) ->
  Str.endswith (Str.lower filename) ".zip" = false ->
  remove_bg_zip W file initial
  = (Raise (HTTPException 400 "File must be a ZIP file"),
     mkState [] 0 [Log WARNING ("Request rejected: Invalid file type '" ++ filename
                                ++ "'. Expected .zip")]).
Proof. intros Hnamed Hzip. unfold remove_bg_zip. by rewrite Hnamed, Hzip. Qed.

Lemma serve_empty_body (W : World) (file : option UploadFile.t) (f : UploadFile.t)
    (filename : string) :
  named_file file = Some (f, filename) ->
  Str.endswith (Str.lower filename) ".zip" = true ->
  UploadFile.contents f = [] ->
  remove_bg_zip W file initial
  = (Raise (HTTPException 400 "The uploaded file is empty"),
     mkState [] 0 [Log WARNING "Request rejected: File content is empty"]).
Proof. intros Hnamed Hzip Hbody. unfold remove_bg_zip. by rewrite Hnamed, Hzip, Hbody. Qed.

Lemma serve_constructor_raises (W : World) (file : option UploadFile.t) (f : UploadFile.t)
    (filename : string) (e : exn) :
  named_file file = Some (f, filename) ->
  Str.endswith (Str.lower filename) ".zip" = true ->
  UploadFile.contents f ≠ [] ->
  ZipFile_r W (UploadFile.contents f) = Raise e ->
  serve W file
  = Raise (match e with
           | BadZipFile _ => HTTPException 400 "Invalid ZIP file format"
           | _ => HTTPException 500 ("Error processing file: " ++ str_exn W e)
           end).
Proof.
  intros Hnamed Hzip Hbody Hopen. unfold serve, remove_bg_zip.
  rewrite Hnamed, Hzip. cbn [negb].
  rewrite (bool_decide_eq_false_2 _ Hbody).
  unfold process_zip. run_step. rewrite Hopen. by destruct e.
Qed.

Lemma named_file_inv (file : option UploadFile.t) (f : UploadFile.t) (filename : string) :
  named_file file = Some (f, filename) ->
  file = Some f ∧ UploadFile.filename f = Some filename ∧ filename ≠ EmptyString.
Proof.
  destruct file as [[[[| a name] |] contents] |]; cbn; try discriminate.
  intros [= <- <-]. by repeat split.
Qed.

(** X5: whatever is uploaded and whatever the external capabilities do,
    the handler either returns a response with status 200 or raises an
    [HTTPException] whose status is 400 or 500; no other exception leaves
    it. *)
Theorem reply_is_http (W : World) (file : option UploadFile.t) :
  (∃ resp, serve W file = Ok resp ∧ StreamingResponse.status_code resp = 200)
  ∨ (∃ detail, serve W file = Raise (HTTPException 400 detail))
  ∨ (∃ detail, serve W file = Raise (HTTPException 500 detail)).
Proof.
  destruct (named_file file) as [[f filename] |] eqn:Hnamed.
  2: { right; left. eexists. unfold serve. by rewrite serve_missing. }
  destruct (Str.endswith (Str.lower filename) ".zip") eqn:Hzip.
  2: { right; left. eexists. unfold serve.
       by rewrite (serve_wrong_extension W file f filename). }
  destruct (decide (UploadFile.contents f = [])) as [Hbody | Hbody].
  { right; left. eexists. unfold serve.
    by rewrite (serve_empty_body W file f filename). }
  destruct (ZipFile_r W (UploadFile.contents f)) as [zip_ref | e] eqn:Hopen.
  - rewrite (serve_opened W file f filename zip_ref) by done.
    destruct (bool_decide _); [right; right; eauto |].
    destruct (bool_decide _); [right; right; eauto |].
    destruct (Str.latin1 _); [left | right; right]; eauto.
  - rewrite (serve_constructor_raises W file f filename e) by done.
    destruct e; [right; right | right; left | right; right]; eauto.
Qed.

(** X6: when the bytes of a named [.zip] upload are not empty and the
    archive constructor raises anything but [BadZipFile], the reply is a
    500 whose detail is [Error processing file: ] followed by the text of
    the exception. *)
Theorem constructor_error_is_500 (W : World) (file : option UploadFile.t) (f : UploadFile.t)
    (filename : string) (e : exn) :
  named_file file = Some (f, filename) ->
  Str.endswith (Str.lower filename) ".zip" = true ->
  UploadFile.contents f ≠ [] ->
  ZipFile_r W (UploadFile.contents f) = Raise e ->
  (∀ msg, e ≠ BadZipFile msg) ->
  serve W file = Raise (HTTPException 500 ("Error processing file: " ++ str_exn W e)).
Proof.
  intros Hnamed Hzip Hbody Hopen Hother.
  rewrite (serve_constructor_raises W file f filename e) by done.
  destruct e as [| msg |]; [done | by destruct (Hother msg) | done].
Qed.

Lemma constructor_error_is_500_witness :
  serve (Toy.world (λ _, Raise (OtherError "That compression method is not supported"))
                   (λ _, true) (λ zi, Ok (Toy.data_of zi)) (λ _, true))
        (Some (Toy.upload "x.zip"))
  = Raise (HTTPException 500 "Error processing file: That compression method is not supported").
Proof.
  apply (constructor_error_is_500 _ (Some (Toy.upload "x.zip")) (Toy.upload "x.zip") "x.zip"
           (OtherError "That compression method is not supported")).
  - reflexivity.
  - reflexivity.
  - discriminate.
  - reflexivity.
  - discriminate.
Defined.

(** X7: a response is returned only for a named [.zip] upload whose bytes
    are not empty and open as an archive in which at least one member was
    processed; it is then the response built from the output archive of the
    loop. *)
Theorem success_needs_a_processed_image (W : World) (file : option UploadFile.t)
    (resp : StreamingResponse.t) :
  serve W file = Ok resp ->
  ∃ f filename zip_ref,
    named_file file = Some (f, filename)
    ∧ Str.endswith (Str.lower filename) ".zip" = true
    ∧ UploadFile.contents f ≠ []
    ∧ ZipFile_r W (UploadFile.contents f) = Ok zip_ref
    ∧ resp = success_response W filename (out_zip (loop_end W zip_ref))
    ∧ ∃ zi, zi ∈ infolist W zip_ref ∧ processed_ok W zip_ref zi = true.
Proof.
  intros Hserve.
  destruct (named_file file) as [[f filename] |] eqn:Hnamed.
  2: { unfold serve in Hserve. by rewrite serve_missing in Hserve. }
  destruct (Str.endswith (Str.lower filename) ".zip") eqn:Hzip.
  2: { unfold serve in Hserve.
       by rewrite (serve_wrong_extension W file f filename) in Hserve. }
  destruct (decide (UploadFile.contents f = [])) as [Hbody | Hbody].
  { unfold serve in Hserve. by rewrite (serve_empty_body W file f filename) in Hserve. }
  destruct (ZipFile_r W (UploadFile.contents f)) as [zip_ref | e] eqn:Hopen.
  2: { by rewrite (serve_constructor_raises W file f filename e) in Hserve. }
  rewrite (serve_opened W file f filename zip_ref) in Hserve by done.
  destruct (bool_decide _); [discriminate |].
  destruct (bool_decide_reflect (processed_files (loop_end W zip_ref) = 0%nat))
    as [| Hcount]; [discriminate |].
  destruct (Str.latin1 _); [| discriminate].
  injection Hserve as <-.
  exists f, filename, zip_ref. repeat split; try done.
  rewrite loop_end_after_loop, processed_files_after_loop in Hcount.
  cbn [initial processed_files Nat.add] in Hcount.
  destruct (filter _ (infolist W zip_ref)) as [| zi rest] eqn:Hfilter; [done |].
  assert (Hzi : zi ∈ filter (λ zi, processed_ok W zip_ref zi = true) (infolist W zip_ref))
    by (rewrite Hfilter; apply list_elem_of_here).
  apply list_elem_of_filter in Hzi as [Hok Hin]. by exists zi.
Qed.

Lemma success_needs_a_processed_image_witness :
  ∃ f filename zip_ref,
    named_file (Some (Toy.upload "up/photos.zip")) = Some (f, filename)
    ∧ Str.endswith (Str.lower filename) ".zip" = true
    ∧ UploadFile.contents f ≠ []
    ∧ ZipFile_r Toy.W_photos (UploadFile.contents f) = Ok zip_ref
    ∧ success_response Toy.W_photos "up/photos.zip"
        (out_zip (loop_end Toy.W_photos
                    [Toy.a_jpg; Toy.notes_txt; Toy.empty_png; Toy.corrupt_png; Toy.a_webp]))
      = success_response Toy.W_photos filename (out_zip (loop_end Toy.W_photos zip_ref))
    ∧ ∃ zi, zi ∈ infolist Toy.W_photos zip_ref ∧ processed_ok Toy.W_photos zip_ref zi = true.
Proof.
  apply (success_needs_a_processed_image Toy.W_photos (Some (Toy.upload "up/photos.zip"))).
  reflexivity.
Defined.

(** X8: a request rejected by one of the first three checks (no named
    file, a name not ending in [.zip], an empty body) is rejected before
    anything else happens: no external capability is called, the trace
    holds one warning and nothing was written. *)
Theorem rejected_before_any_call (W : World) (file : option UploadFile.t) :
  check_fails W file MissingFile || check_fails W file WrongExtension
  || check_fails W file EmptyBody = true ->
  ∃ msg, trace (remove_bg_zip W file initial).2 = [Log WARNING msg]
         ∧ out_zip (remove_bg_zip W file initial).2 = []
         ∧ forallb is_log (trace (remove_bg_zip W file initial).2) = true.
Proof.
  intros Hfails.
  destruct (named_file file) as [[f filename] |] eqn:Hnamed.
  2: { rewrite serve_missing by done. cbn. eauto. }
  destruct (Str.endswith (Str.lower filename) ".zip") eqn:Hzip.
  2: { rewrite (serve_wrong_extension W file f filename) by done. cbn. eauto. }
  destruct (decide (UploadFile.contents f = [])) as [Hbody | Hbody].
  { rewrite (serve_empty_body W file f filename) by done. cbn. eauto. }
  exfalso.
  apply named_file_inv in Hnamed as (-> & Hname & Hne).
  cbn in Hfails. rewrite Hname, Hzip in Hfails. cbn in Hfails.
  destruct (UploadFile.contents f); [done |].
  destruct filename; [done | discriminate].
Qed.

Lemma rejected_before_any_call_witness :
  ∃ msg, trace (remove_bg_zip Toy.W_bad (Some (UploadFile.mk (Some "a.zip") [])) initial).2
         = [Log WARNING msg]
         ∧ out_zip (remove_bg_zip Toy.W_bad (Some (UploadFile.mk (Some "a.zip") [])) initial).2
           = []
         ∧ forallb is_log
             (trace (remove_bg_zip Toy.W_bad (Some (UploadFile.mk (Some "a.zip") [])) initial).2)
           = true.
Proof.
  apply (rejected_before_any_call Toy.W_bad (Some (UploadFile.mk (Some "a.zip") []))).
  reflexivity.
Defined.

(** ** Strings and paths *)

Lemma length_append (a b : string) :
  String.length (a ++ b) = (String.length a + String.length b)%nat.
Proof.
  induction a as [| c a IH]; [reflexivity |].
  rewrite append_cons. cbn [String.length]. by rewrite IH.
Qed.

Lemma lower_append (a b : string) : Str.lower (a ++ b) = Str.lower a ++ Str.lower b.
Proof.
  induction a as [| c a IH]; [reflexivity |].
  rewrite append_cons. cbn [Str.lower]. by rewrite IH, append_cons.
Qed.

Lemma length_lower (a : string) : String.length (Str.lower a) = String.length a.
Proof. induction a as [| c a IH]; [reflexivity |]. cbn. by rewrite IH. Qed.

Lemma drop_append (a b : string) : Str.drop (String.length a) (a ++ b) = b.
Proof. induction a as [| c a IH]; [by destruct b |]. by rewrite append_cons. Qed.

Lemma take_append (a b : string) : Str.take (String.length a) (a ++ b) = a.
Proof.
  induction a as [| c a IH]; [by destruct b |].
  rewrite append_cons. cbn. by rewrite IH.
Qed.

Lemma endswith_append (a b : string) : Str.endswith (a ++ b) b = true.
Proof.
  unfold Str.endswith. rewrite length_append.
  replace (String.length a + String.length b - String.length b)%nat
    with (String.length a) by lia.
  rewrite drop_append, String.eqb_refl, andb_true_r.
  apply Nat.leb_le. lia.
Qed.

Lemma lower_zip_nonempty (stem ext : string) :
  Str.lower ext = ".zip" -> stem ++ ext ≠ EmptyString.
Proof.
  intros Hext Hnil. apply (f_equal String.length) in Hnil.
  apply (f_equal String.length) in Hext.
  rewrite length_append in Hnil. rewrite length_lower in Hext. cbn in Hext, Hnil. lia.
Qed.

(** X9: the [.zip] check does not look at the case of the extension.  An
    upload whose name ends in four characters that lower to [.zip] is
    never answered with [File must be a ZIP file], nor with
    [No file provided]. *)
Theorem zip_extension_any_case (W : World) (f : UploadFile.t) (stem ext : string) :
  UploadFile.filename f = Some (stem ++ ext) ->
  Str.lower ext = ".zip" ->
  Str.endswith (Str.lower (stem ++ ext)) ".zip" = true
  ∧ serve W (Some f) ≠ Raise (HTTPException 400 "File must be a ZIP file")
  ∧ serve W (Some f) ≠ Raise (HTTPException 400 "No file provided").
Proof.
  intros Hname Hext.
  assert (Hzip : Str.endswith (Str.lower (stem ++ ext)) ".zip" = true).
  { rewrite lower_append, Hext. apply endswith_append. }
  assert (Hnamed : named_file (Some f) = Some (f, stem ++ ext)).
  { unfold named_file. rewrite Hname.
    pose proof (lower_zip_nonempty stem ext Hext).
    by destruct (stem ++ ext). }
  split; [done |].
  destruct (decide (UploadFile.contents f = [])) as [Hbody | Hbody].
  { unfold serve. by rewrite (serve_empty_body W (Some f) f (stem ++ ext)). }
  destruct (ZipFile_r W (UploadFile.contents f)) as [zip_ref | e] eqn:Hopen.
  - rewrite (serve_opened W (Some f) f (stem ++ ext) zip_ref) by done.
    repeat destruct (bool_decide _); try done. by destruct (Str.latin1 _).
  - rewrite (serve_constructor_raises W (Some f) f (stem ++ ext) e) by done.
    by destruct e.
Qed.

Lemma zip_extension_any_case_witness :
  Str.endswith (Str.lower ("Holiday Photos" ++ ".ZiP")) ".zip" = true
  ∧ serve Toy.W_photos (Some (Toy.upload "Holiday Photos.ZiP"))
    ≠ Raise (HTTPException 400 "File must be a ZIP file")
  ∧ serve Toy.W_photos (Some (Toy.upload "Holiday Photos.ZiP"))
    ≠ Raise (HTTPException 400 "No file provided").
Proof.
  apply (zip_extension_any_case Toy.W_photos (Toy.upload "Holiday Photos.ZiP")
           "Holiday Photos" ".ZiP").
  - reflexivity.
  - reflexivity.
Defined.

Lemma drop_S (n : nat) (s : string) :
  Str.drop (S n) s
  = match Str.drop n s with
    | EmptyString => EmptyString
    | String _ rest => rest
    end.
Proof.
  revert s. induction n as [| n IH]; intros [| c s]; try reflexivity.
  cbn [Str.drop]. apply IH.
Qed.

Lemma occurs_drop (c : ascii) (n : nat) (s : string) :
  occurs c s = false -> occurs c (Str.drop n s) = false.
Proof.
  revert s. induction n as [| n IH]; intros [| a s]; cbn; try done.
  intros [_ H]%orb_false_elim. by apply IH.
Qed.

Lemma drop_drop (n m : nat) (s : string) :
  Str.drop (n + m) s = Str.drop n (Str.drop m s).
Proof.
  revert s. induction m as [| m IH]; intros s.
  - by rewrite Nat.add_0_r.
  - rewrite Nat.add_succ_r. destruct s as [| c s]; [by destruct n |].
    cbn [Str.drop]. apply IH.
Qed.

Lemma rfind_from_spec (c : ascii) (s : string) (i last : Z) :
  (occurs c s = false ∧ Str.rfind_from c s i last = last)
  ∨ (∃ rest,
       i <= Str.rfind_from c s i last < i + Z.of_nat (String.length s)
       ∧ Str.drop (Z.to_nat (Str.rfind_from c s i last - i)) s = String c rest
       ∧ occurs c rest = false).
Proof.
  revert i last. induction s as [| a s IH]; intros i last; [by left |].
  cbn [Str.rfind_from].
  destruct (IH (i + 1) (if Ascii.eqb a c then i else last))
    as [[Hocc Hr] | (rest & Hrange & Hdrop & Hocc)].
  - rewrite Hr. destruct (Ascii.eqb_spec a c) as [-> | Hne].
    + right. exists s. rewrite Z.sub_diag. cbn [String.length]. repeat split; try done; lia.
    + left. cbn [occurs]. apply Ascii.eqb_neq in Hne. by rewrite Hne.
  - right. exists rest. cbn [String.length]. split; [lia |]. split; [| done].
    replace (Z.to_nat (Str.rfind_from c s (i + 1) (if Ascii.eqb a c then i else last) - i))
      with (S (Z.to_nat (Str.rfind_from c s (i + 1) (if Ascii.eqb a c then i else last)
                         - (i + 1)))) by lia.
    exact Hdrop.
Qed.

Lemma rfind_spec (c : ascii) (s : string) :
  (occurs c s = false ∧ Str.rfind c s = -1)
  ∨ (∃ rest,
       0 <= Str.rfind c s < Z.of_nat (String.length s)
       ∧ Str.drop (Z.to_nat (Str.rfind c s)) s = String c rest
       ∧ occurs c rest = false).
Proof.
  unfold Str.rfind.
  destruct (rfind_from_spec c s 0 (-1)) as [H | (rest & Hrange & Hdrop & Hocc)]; [by left |].
  right. exists rest. by rewrite Z.sub_0_r in Hdrop.
Qed.

Lemma take_S (n : nat) (s : string) (c : ascii) (rest : string) :
  Str.drop n s = String c rest ->
  Str.take (S n) s = Str.take n s ++ String c EmptyString.
Proof.
  revert s. induction n as [| n IH]; intros [| a s]; cbn [Str.drop]; try discriminate.
  - by intros [= -> ->].
  - intros Hdrop. cbn [Str.take] in *. by rewrite (IH s Hdrop), append_cons.
Qed.

(** X10: [os.path.basename] splits a path at its last slash: the path is a
    directory part followed by the base name, the base name has no slash,
    and the directory part is empty or ends with a slash.  So the file name
    of the [Content-Disposition] header never holds a directory. *)
Theorem basename_shape (p : string) :
  occurs "/" (os_path.basename p) = false
  ∧ ∃ dir, p = dir ++ os_path.basename p
           ∧ (dir = EmptyString ∨ ∃ d, dir = d ++ "/").
Proof.
  unfold os_path.basename.
  destruct (rfind_spec "/" p) as [[Hocc ->] | (rest & Hrange & Hdrop & Hocc)].
  - cbn [Z.add Z.to_nat Str.drop]. split; [by destruct p |].
    exists EmptyString. split; [by destruct p | by left].
  - replace (Z.to_nat (Str.rfind "/" p + 1)) with (S (Z.to_nat (Str.rfind "/" p))) by lia.
    rewrite drop_S, Hdrop. split; [done |].
    exists (Str.take (S (Z.to_nat (Str.rfind "/" p))) p). split.
    + rewrite <- (take_drop (S (Z.to_nat (Str.rfind "/" p))) p) at 1.
      by rewrite drop_S, Hdrop.
    + right. eexists. by apply take_S with rest.
Qed.

Lemma splitext_ext_no_slash (p : string) : occurs "/" (os_path.splitext p).2 = false.
Proof.
  unfold os_path.splitext.
  destruct (_ && _) eqn:Hcond; [| done].
  apply andb_true_iff in Hcond as [Hlt%Z.ltb_lt _]. cbn [snd].
  destruct (rfind_spec "/" p) as [[Hnone _] | (tail & Hsrange & Hsdrop & Hsocc)].
  - by apply occurs_drop.
  - assert (Htail : tail = Str.drop (S (Z.to_nat (Str.rfind "/" p))) p)
      by (by rewrite drop_S, Hsdrop).
    replace (Z.to_nat (Str.rfind "." p))
      with (Z.to_nat (Str.rfind "." p) - S (Z.to_nat (Str.rfind "/" p))
            + S (Z.to_nat (Str.rfind "/" p)))%nat by lia.
    rewrite drop_drop, <- Htail. by apply occurs_drop.
Qed.

(** X11: [os.path.splitext] cuts a name in two parts that give the name
    back when joined, and the extension is either empty or a dot followed
    by characters among which there is no dot and no slash. *)
Theorem splitext_shape (p : string) :
  (os_path.splitext p).1 ++ (os_path.splitext p).2 = p
  ∧ ((os_path.splitext p).2 = EmptyString
     ∨ ∃ rest, (os_path.splitext p).2 = String "." rest
               ∧ occurs "." rest = false ∧ occurs "/" rest = false).
Proof.
  split; [apply splitext_join |].
  pose proof (splitext_ext_no_slash p) as Hnoslash. revert Hnoslash.
  unfold os_path.splitext.
  destruct (_ && _) eqn:Hcond; [| by left].
  apply andb_true_iff in Hcond as [Hlt%Z.ltb_lt _]. cbn [snd]. intros Hnoslash. right.
  destruct (rfind_spec "." p) as [[_ Hdot] | (rest & Hrange & Hdrop & Hocc)].
  { destruct (rfind_spec "/" p) as [[_ Hsep] | (? & ? & _)]; lia. }
  exists rest. split; [done |]. split; [done |].
  rewrite Hdrop in Hnoslash. by apply orb_false_elim in Hnoslash as [_ ?].
Qed.

Lemma rfind_from_append (c : ascii) (a b : string) (i last : Z) :
  Str.rfind_from c (a ++ b) i last
  = Str.rfind_from c b (i + Z.of_nat (String.length a)) (Str.rfind_from c a i last).
Proof.
  revert i last. induction a as [| x a IH]; intros i last.
  - cbn. by rewrite Z.add_0_r.
  - rewrite append_cons. cbn [Str.rfind_from String.length]. rewrite IH.
    f_equal. lia.
Qed.

Lemma rfind_from_absent (c : ascii) (s : string) (i last : Z) :
  occurs c s = false -> Str.rfind_from c s i last = last.
Proof.
  revert i last. induction s as [| a s IH]; intros i last; [done |].
  cbn. intros [-> H]%orb_false_elim. by apply IH.
Qed.

Lemma length_take (n : nat) (s : string) :
  (n <= String.length s)%nat -> String.length (Str.take n s) = n.
Proof.
  revert s. induction n as [| n IH]; intros [| c s]; cbn; try lia.
  intros H. rewrite IH; lia.
Qed.

Lemma length_drop (n : nat) (s : string) :
  String.length (Str.drop n s) = (String.length s - n)%nat.
Proof.
  revert s. induction n as [| n IH]; intros [| c s]; cbn; try lia. apply IH.
Qed.

Lemma drop_append_le (n : nat) (a b : string) :
  (n <= String.length a)%nat -> Str.drop n (a ++ b) = Str.drop n a ++ b.
Proof.
  revert a. induction n as [| n IH]; intros [| c a]; cbn [String.length]; try lia; try done.
  intros H. rewrite append_cons. cbn [Str.drop]. apply IH. lia.
Qed.

Lemma only_dots_append (k : nat) (x b : string) :
  (k <= String.length x)%nat -> os_path.only_dots (x ++ b) k = os_path.only_dots x k.
Proof.
  revert x. induction k as [| k IH]; intros [| c x]; cbn [String.length]; try lia.
  - by destruct b.
  - done.
  - intros H. rewrite append_cons. cbn [os_path.only_dots]. rewrite IH; [done | lia].
Qed.

Lemma splitext_cut (p : string) :
  (os_path.splitext p).2 ≠ EmptyString ->
  Str.rfind "/" p < Str.rfind "." p
  ∧ os_path.only_dots (Str.drop (Z.to_nat (Str.rfind "/" p + 1)) p)
      (Z.to_nat (Str.rfind "." p - (Str.rfind "/" p + 1))) = false
  ∧ (os_path.splitext p).1 = Str.take (Z.to_nat (Str.rfind "." p)) p
  ∧ (os_path.splitext p).2 = Str.drop (Z.to_nat (Str.rfind "." p)) p.
Proof.
  unfold os_path.splitext.
  destruct (_ && _) eqn:Hcond; [| done]. intros _.
  by apply andb_true_iff in Hcond as [Hlt%Z.ltb_lt Hdots%negb_true_iff].
Qed.

Lemma splitext_png (p : string) :
  (os_path.splitext p).2 ≠ EmptyString ->
  os_path.splitext ((os_path.splitext p).1 ++ ".png") = ((os_path.splitext p).1, ".png").
Proof.
  intros Hext.
  pose proof (splitext_join p) as Hjoin.
  pose proof (splitext_ext_no_slash p) as Hnoslash.
  destruct (splitext_cut p Hext) as (Hlt & Hdots & Hroot & _).
  set (d := Str.rfind "." p) in *. set (sp := Str.rfind "/" p) in *.
  set (base := (os_path.splitext p).1) in *.
  assert (Hd : 0 <= d < Z.of_nat (String.length p)).
  { subst d. destruct (rfind_spec "." p) as [[_ Hdot] | (? & ? & _)]; [| done].
    subst sp. destruct (rfind_spec "/" p) as [[_ Hsep] | (? & ? & _)]; lia. }
  assert (Hlen : Z.of_nat (String.length base) = d).
  { rewrite Hroot, length_take; lia. }
  assert (Hsep : Str.rfind "/" base = sp).
  { subst sp. rewrite <- Hjoin at 1. unfold Str.rfind.
    rewrite rfind_from_append.
    by rewrite (rfind_from_absent "/" (os_path.splitext p).2). }
  assert (Hdot' : Str.rfind "." (base ++ ".png") = d).
  { unfold Str.rfind. rewrite rfind_from_append. cbn. lia. }
  assert (Hsep' : Str.rfind "/" (base ++ ".png") = sp).
  { unfold Str.rfind. rewrite rfind_from_append. cbn. exact Hsep. }
  assert (Hsp : -1 <= sp).
  { subst sp. destruct (rfind_spec "/" p) as [[_ ->] | (? & ? & _)]; lia. }
  assert (Hdots' : os_path.only_dots (Str.drop (Z.to_nat (sp + 1)) (base ++ ".png"))
                     (Z.to_nat (d - (sp + 1)))
                   = false).
  { assert (Hcut : ∀ ext', os_path.only_dots (Str.drop (Z.to_nat (sp + 1)) (base ++ ext'))
                             (Z.to_nat (d - (sp + 1)))
                           = os_path.only_dots (Str.drop (Z.to_nat (sp + 1)) base)
                               (Z.to_nat (d - (sp + 1)))).
    { intros ext'. rewrite drop_append_le by lia.
      apply only_dots_append. rewrite length_drop. lia. }
    rewrite Hcut, <- (Hcut (os_path.splitext p).2), Hjoin. exact Hdots. }
  unfold os_path.splitext. rewrite Hdot', Hsep', Hdots'.
  apply Z.ltb_lt in Hlt. rewrite Hlt. cbn [andb negb].
  replace (Z.to_nat d) with (String.length base) by lia.
  by rewrite take_append, drop_append.
Qed.

(** X12: the name given to a processed image is stable.  For a non-empty
    member with a recognized extension, the name with the extension
    replaced by [.png] is cut by [splitext] into the same root and [.png];
    so a member with that name and some content is again a member with a
    recognized extension, and processing it again writes it under the same
    name. *)
Theorem png_name_stable (zi : ZipInfo.t) (size offset : Z) :
  is_candidate zi = true ->
  size ≠ 0 ->
  let root := (os_path.splitext (ZipInfo.filename zi)).1 in
  os_path.splitext (root ++ ".png") = (root, ".png")
  ∧ is_candidate (ZipInfo.mk (root ++ ".png") size offset) = true
  ∧ (os_path.splitext (ZipInfo.filename (ZipInfo.mk (root ++ ".png") size offset))).1 ++ ".png"
    = root ++ ".png".
Proof.
  intros [Hsize Hext]%is_candidate_spec Hnz root.
  assert (Hne : (os_path.splitext (ZipInfo.filename zi)).2 ≠ EmptyString).
  { intros Hnil. unfold file_ext in Hext. rewrite Hnil in Hext. by vm_compute in Hext. }
  pose proof (splitext_png (ZipInfo.filename zi) Hne) as Hpng. fold root in Hpng.
  split; [done |]. split.
  - apply is_candidate_spec. split; [done |].
    unfold file_ext. cbn [ZipInfo.filename]. rewrite Hpng. by vm_compute.
  - cbn [ZipInfo.filename]. by rewrite Hpng.
Qed.

Lemma png_name_stable_witness :
  os_path.splitext ("shots/IMG.0001" ++ ".png") = ("shots/IMG.0001", ".png")
  ∧ is_candidate (ZipInfo.mk ("shots/IMG.0001" ++ ".png") 7 0) = true
  ∧ (os_path.splitext
       (ZipInfo.filename (ZipInfo.mk ("shots/IMG.0001" ++ ".png") 7 0))).1 ++ ".png"
    = "shots/IMG.0001" ++ ".png".
Proof.
  apply (png_name_stable (ZipInfo.mk "shots/IMG.0001.JPEG" 5 0) 7 0).
  - reflexivity.
  - discriminate.
Defined.

(** ** Calls to the background removal *)

Lemma removals_app (t1 t2 : list event) :
  removals (t1 ++ t2) = (removals t1 + removals t2)%nat.
Proof.
  induction t1 as [| ev t1 IH]; [reflexivity |].
  destruct ev; cbn; by rewrite ?IH.
Qed.

Lemma removals_turn (W : World) (zip_ref : ZipRef W) (zi : ZipInfo.t) :
  (processed_files (turn W zip_ref zi) <= removals (trace (turn W zip_ref zi)))%nat
  ∧ (removals (trace (turn W zip_ref zi)) <= if is_candidate zi then 1 else 0)%nat.
Proof.
  unfold turn, process_entry, is_candidate, file_ext.
  destruct (ZipInfo.file_size zi =? 0); [by cbn |].
  cbn [negb andb].
  destruct (decide (Str.lower (os_path.splitext (ZipInfo.filename zi)).2 ∈ ALLOWED_EXTENSIONS))
    as [Hext | Hext].
  2: { by rewrite (bool_decide_eq_false_2 _ Hext). }
  rewrite (bool_decide_eq_true_2 _ Hext). run_step.
  turn_cases W zip_ref zi; cbn; lia.
Qed.

Lemma removals_after_loop (W : World) (zip_ref : ZipRef W) (l : list ZipInfo.t) (s : State) :
  (processed_files (after_loop W zip_ref l s) - processed_files s
   <= removals (trace (after_loop W zip_ref l s)) - removals (trace s))%nat
  ∧ (removals (trace (after_loop W zip_ref l s))
     <= removals (trace s) + length (filter (λ zi, is_candidate zi = true) l))%nat
  ∧ (processed_files s <= processed_files (after_loop W zip_ref l s))%nat
  ∧ (removals (trace s) <= removals (trace (after_loop W zip_ref l s)))%nat.
Proof.
  revert s. induction l as [| zi l IH]; intros s.
  - cbn. lia.
  - rewrite after_loop_cons, filter_cons.
    destruct (IH (extend s (turn W zip_ref zi))) as (IH1 & IH2 & IH3 & IH4).
    destruct (removals_turn W zip_ref zi) as [Hlow Hhigh].
    cbn [extend processed_files trace] in IH1, IH2, IH3, IH4.
    rewrite removals_app in IH1, IH2, IH4.
    destruct (is_candidate zi); case_decide; try congruence; cbn [length]; lia.
Qed.

(** X13: the background removal is called at most once for each non-empty
    member with a recognized extension and never for another member, and a
    member is counted as processed only if the removal was called for
    it. *)
Theorem removal_calls_bounded (W : World) (zip_ref : ZipRef W) :
  (processed_files (loop_end W zip_ref) <= removals (trace (loop_end W zip_ref)))%nat
  ∧ (removals (trace (loop_end W zip_ref))
     <= length (filter (λ zi, is_candidate zi = true) (infolist W zip_ref)))%nat.
Proof.
  rewrite loop_end_after_loop.
  destruct (removals_after_loop W zip_ref (infolist W zip_ref) initial) as (H1 & H2 & _).
  cbn [initial processed_files trace removals] in H1, H2. lia.
Qed.
